(** * A shallow embedding of the PlanetScale driver for Fastly Compute

    The development follows [driver.go]: the row decoder ([readRows]), the
    transport wrapper ([sendRequest]), the session bootstrap
    ([refreshSession]), the query entry points ([Query], [QueryContext]), the
    unsupported operations and the result cursor ([Next]).

    Go values are embedded as follows.
    - [[]byte] and [string] are lists of bytes; a nil slice that the code
      tests against [nil] (the stored session) is an [option].
    - [uint64] and [int] are integers in [Z], the wrap-around of every
      operation written out.
    - A Go function returning [(T, error)] returns an [outcome T]: a value,
      an error, or a run-time panic.
    - Methods on [*PsConn] that talk to the backend are state transformers
      over the connection and the network (the replies still to come and the
      log of the requests sent). *)

From Stdlib Require Import Strings.Byte Strings.String DecimalString.
From Stdlib Require Import ZArith List Lia Bool.
Import ListNotations.
Open Scope Z_scope.

(** ** Bytes *)

Definition bytes := list byte.

(** A string literal as the bytes of a Go string constant. *)
Definition B (s : string) : bytes := list_byte_of_string s.

Definition byte_to_Z (b : byte) : Z := Z.of_N (Byte.to_N b).

Definition Z_to_byte (z : Z) : byte :=
  match Byte.of_N (Z.to_N (z mod 256)) with
  | Some b => b
  | None => x00
  end.

Fixpoint bytes_eqb (a b : bytes) : bool :=
  match a, b with
  | [], [] => true
  | x :: a', y :: b' => Byte.eqb x y && bytes_eqb a' b'
  | _, _ => false
  end.

Definition len {A} (l : list A) : Z := Z.of_nat (length l).

(** [s[lo:hi]] on the contents of a slice, for indices already checked. *)
Definition slice {A} (s : list A) (lo hi : Z) : list A :=
  firstn (Z.to_nat (hi - lo)) (skipn (Z.to_nat lo) s).

(** [make([]byte, n)]. *)
Definition make_bytes (n : Z) : bytes := repeat x00 (Z.to_nat n).

(** [%d] applied to an [int]. *)
Definition itoa (z : Z) : bytes := B (NilZero.string_of_int (Z.to_int z)).

Definition uint64_modulus : Z := 2 ^ 64.
Definition max_uint64 : Z := uint64_modulus - 1.
Definition max_int : Z := 2 ^ 63 - 1.
Definition min_int : Z := - 2 ^ 63.

Definition wrap_uint64 (z : Z) : Z := z mod uint64_modulus.

(** Two's complement wrap-around of the Go [int] type on a 64-bit target. *)
Definition wrap_int (z : Z) : Z := (z + 2 ^ 63) mod uint64_modulus - 2 ^ 63.

(** ** Errors, panics and outcomes *)

Inductive strconv_err := ErrSyntax | ErrRange.

Inductive error :=
| Errorf (msg : bytes)                   (* fmt.Errorf, message after formatting *)
| io_EOF                                 (* io.EOF *)
| CorruptInputError                      (* encoding/base64 *)
| NumError (fn num : bytes) (e : strconv_err)  (* strconv *)
| JSONError (detail : bytes)             (* fastjson parser, encoding/json *)
| URLError (detail : bytes)              (* net/url, through fsthttp.NewRequest *)
| NetError (detail : bytes).             (* fsthttp Send, body read *)

Inductive panic :=
| slice_bounds_out_of_range
| index_out_of_range
| nil_pointer_dereference.

Inductive outcome (A : Type) :=
| Ok (a : A)
| Err (e : error)
| Panic (p : panic).
Arguments Ok {A} a.
Arguments Err {A} e.
Arguments Panic {A} p.

Definition obind {A C} (m : outcome A) (k : A -> outcome C) : outcome C :=
  match m with
  | Ok a => k a
  | Err e => Err e
  | Panic p => Panic p
  end.

Declare Scope outcome_scope.
Delimit Scope outcome_scope with outcome.
Notation "x <- m ;; k" := (obind m (fun x => k))
  (at level 61, m at next level, right associativity) : outcome_scope.

(** ** encoding/base64, the standard padded encoding *)

Module base64.

Definition padChar : byte := "="%byte.

Definition is_newline (c : byte) : bool :=
  Byte.eqb c x0a || Byte.eqb c x0d.

(** [enc.decodeMap]: the 6-bit value of an alphabet character, [None] for
    the table's 0xff. *)
Definition decodeMap (c : byte) : option Z :=
  let n := byte_to_Z c in
  if (65 <=? n) && (n <=? 90) then Some (n - 65)
  else if (97 <=? n) && (n <=? 122) then Some (n - 97 + 26)
  else if (48 <=? n) && (n <=? 57) then Some (n - 48 + 52)
  else if n =? 43 then Some 62
  else if n =? 47 then Some 63
  else None.

(** [enc.encode]'s table. *)
Definition encodeMap (v : Z) : byte :=
  if v <? 26 then Z_to_byte (v + 65)
  else if v <? 52 then Z_to_byte (v - 26 + 97)
  else if v <? 62 then Z_to_byte (v - 52 + 48)
  else if v =? 62 then "+"%byte
  else "/"%byte.

(** [DecodedLen] for a padded encoding. *)
Definition DecodedLen (n : Z) : Z := n / 4 * 3.

Fixpoint skip_newlines (src : bytes) : bytes :=
  match src with
  | c :: rest => if is_newline c then skip_newlines rest else src
  | [] => []
  end.

(** The bytes a quantum writes: [dbuf] holds the 6-bit values read so far,
    [dlen] how many of them there are; [dlen - 1] bytes come out. *)
Definition quantum (dbuf : list Z) (dlen : nat) : bytes :=
  let d i := nth i dbuf 0 in
  let val := Z.lor (Z.lor (Z.shiftl (d 0%nat) 18) (Z.shiftl (d 1%nat) 12))
                   (Z.lor (Z.shiftl (d 2%nat) 6) (d 3%nat)) in
  firstn (dlen - 1)
    [Z_to_byte (Z.shiftr val 16); Z_to_byte (Z.shiftr val 8); Z_to_byte val].

(** [Decode]'s loop over [decodeQuantum], as one pass over the input:
    [dbuf] is the quantum being filled.  Line breaks are skipped wherever
    they stand, padding closes the input, anything else outside the
    alphabet is corrupt. *)
Fixpoint decode_from (src : bytes) (dbuf : list Z) : outcome bytes :=
  match src with
  | [] =>
      match dbuf with
      | [] => Ok []
      | _ => Err CorruptInputError
      end
  | c :: rest =>
      match decodeMap c with
      | Some v =>
          let dbuf' := dbuf ++ [v] in
          if (length dbuf' =? 4)%nat
          then match decode_from rest [] with
               | Ok out => Ok (quantum dbuf' 4 ++ out)
               | other => other
               end
          else decode_from rest dbuf'
      | None =>
          if is_newline c then decode_from rest dbuf
          else if Byte.eqb c padChar then
            match length dbuf with
            | 2%nat =>
                match skip_newlines rest with
                | c2 :: rest2 =>
                    if Byte.eqb c2 padChar
                    then match skip_newlines rest2 with
                         | [] => Ok (quantum dbuf 2)
                         | _ => Err CorruptInputError
                         end
                    else Err CorruptInputError
                | [] => Err CorruptInputError
                end
            | 3%nat =>
                match skip_newlines rest with
                | [] => Ok (quantum dbuf 3)
                | _ => Err CorruptInputError
                end
            | _ => Err CorruptInputError
            end
          else Err CorruptInputError
      end
  end.

(** [StdEncoding.Decode(dst, src)]: the bytes written to the front of
    [dst], whose count is the [n] returned. *)
Definition Decode (src : bytes) : outcome bytes := decode_from src [].

(** [StdEncoding.EncodeToString]. *)
Fixpoint EncodeToString (src : bytes) : bytes :=
  match src with
  | [] => []
  | [a] =>
      let val := Z.shiftl (byte_to_Z a) 16 in
      [encodeMap (Z.land (Z.shiftr val 18) 63);
       encodeMap (Z.land (Z.shiftr val 12) 63); padChar; padChar]
  | [a; b] =>
      let val := Z.lor (Z.shiftl (byte_to_Z a) 16) (Z.shiftl (byte_to_Z b) 8) in
      [encodeMap (Z.land (Z.shiftr val 18) 63);
       encodeMap (Z.land (Z.shiftr val 12) 63);
       encodeMap (Z.land (Z.shiftr val 6) 63); padChar]
  | a :: b :: c :: rest =>
      let val := Z.lor (Z.lor (Z.shiftl (byte_to_Z a) 16) (Z.shiftl (byte_to_Z b) 8))
                       (byte_to_Z c) in
      encodeMap (Z.land (Z.shiftr val 18) 63)
      :: encodeMap (Z.land (Z.shiftr val 12) 63)
      :: encodeMap (Z.land (Z.shiftr val 6) 63)
      :: encodeMap (Z.land val 63)
      :: EncodeToString rest
  end.

End base64.

(** ** strconv *)

Module strconv.

Definition digit (c : byte) : option Z :=
  let n := byte_to_Z c in
  if (48 <=? n) && (n <=? 57) then Some (n - 48) else None.

(** The digit loop of [ParseUint(s, 10, 64)]: [n] is the value so far,
    [s0] the whole input, kept for the error. *)
Fixpoint ParseUint_loop (s0 s : bytes) (n : Z) : outcome Z :=
  match s with
  | [] => Ok n
  | c :: rest =>
      match digit c with
      | None => Err (NumError (B "ParseUint") s0 ErrSyntax)
      | Some d =>
          if max_uint64 / 10 + 1 <=? n
          then Err (NumError (B "ParseUint") s0 ErrRange)
          else
            let n10 := wrap_uint64 (n * 10) in
            let n1 := wrap_uint64 (n10 + d) in
            if (n1 <? n10) || (max_uint64 <? n1)
            then Err (NumError (B "ParseUint") s0 ErrRange)
            else ParseUint_loop s0 rest n1
      end
  end.

(** [strconv.ParseUint(s, 10, 64)]. *)
Definition ParseUint (s : bytes) : outcome Z :=
  match s with
  | [] => Err (NumError (B "ParseUint") s ErrSyntax)
  | _ => ParseUint_loop s s 0
  end.

(** [strconv.Atoi], as far as [fastjson.Value.Get] uses it: a decimal
    array index. *)
Definition Atoi (s : bytes) : outcome Z :=
  let body sign digits :=
    match ParseUint digits with
    | Ok n => if (sign =? 1) && (max_int <? n) then Err (NumError (B "Atoi") s ErrRange)
              else if (sign =? -1) && (max_int + 1 <? n) then Err (NumError (B "Atoi") s ErrRange)
              else Ok (sign * n)
    | Err (NumError _ _ e) => Err (NumError (B "Atoi") s e)
    | other => other
    end in
  match s with
  | c :: rest =>
      if Byte.eqb c "+"%byte then body 1 rest
      else if Byte.eqb c "-"%byte then body (-1) rest
      else body 1 s
  | [] => Err (NumError (B "Atoi") s ErrSyntax)
  end.

End strconv.

(** ** github.com/valyala/fastjson: parsed values and their accessors

    A parsed document is a tree; object members keep their order, their
    keys in unescaped form.  A [*Value] that may be nil is an
    [option Value], a [*Object] that may be nil an [option Object]. *)

Module fastjson.

#[local] Set Warnings "-register-all".

Inductive Value :=
| VObject (kvs : list (bytes * Value))
| VArray (a : list Value)
| VString (s : bytes)
| VNumber (s : bytes)
| VTrue
| VFalse
| VNull.

Definition Object := list (bytes * Value).

(** [Object.Get]: the first member under [key]. *)
Fixpoint Object_Get (o : Object) (key : bytes) : option Value :=
  match o with
  | [] => None
  | (k, v) :: rest => if bytes_eqb k key then Some v else Object_Get rest key
  end.

Fixpoint Get_path (v : Value) (keys : list bytes) : option Value :=
  match keys with
  | [] => Some v
  | key :: keys' =>
      match v with
      | VObject kvs =>
          match Object_Get kvs key with
          | Some v' => Get_path v' keys'
          | None => None
          end
      | VArray a =>
          match strconv.Atoi key with
          | Ok n =>
              if (n <? 0) || (len a <=? n) then None
              else match nth_error a (Z.to_nat n) with
                   | Some v' => Get_path v' keys'
                   | None => None
                   end
          | _ => None
          end
      | _ => None
      end
  end.

(** [Value.Get(keys...)], nil on a nil receiver. *)
Definition Get (v : option Value) (keys : list bytes) : option Value :=
  match v with
  | None => None
  | Some v => Get_path v keys
  end.

Definition GetObject (v : option Value) (keys : list bytes) : option Object :=
  match Get v keys with
  | Some (VObject kvs) => Some kvs
  | _ => None
  end.

(** [GetArray]: a nil slice when the value is missing or no array. *)
Definition GetArray (v : option Value) (keys : list bytes) : list Value :=
  match Get v keys with
  | Some (VArray a) => a
  | _ => []
  end.

(** [GetStringBytes]: nil when the value is missing or no string. *)
Definition GetStringBytes (v : option Value) (keys : list bytes) : bytes :=
  match Get v keys with
  | Some (VString s) => s
  | _ => []
  end.

(** [GetUint]: 0 when the value is missing, no number, or does not fit. *)
Definition GetUint (v : option Value) (keys : list bytes) : Z :=
  match Get v keys with
  | Some (VNumber s) =>
      match strconv.ParseUint s with
      | Ok n => n
      | _ => 0
      end
  | _ => 0
  end.

End fastjson.
Import fastjson.

(** ** The driver's data *)

Definition apiPrefix : bytes := B "/psdb.v1alpha1.Database".
Definition executorEndpoint : bytes := apiPrefix ++ B "/Execute".
Definition sessionEndpoint : bytes := apiPrefix ++ B "/CreateSession".
Definition executorMethod : bytes := B "POST".
Definition jsonContentType : bytes := B "application/json".
Definition userAgent : bytes := B "database-go".

Definition unknownError : error := Errorf (B "unknown error").

Record PsConn := {
  username : bytes;
  password : bytes;
  host : bytes;
  backend : bytes;
  session : option bytes
}.

Record PsField := {
  Name : bytes;
  Type_ : bytes;
  Table : bytes;
  ColumnLength : Z;
  Charset : Z;
  Flags : Z
}.

Record PsRow := { Values : list bytes }.

Record PsResults := {
  Fields : list PsField;
  Rows : list PsRow;
  pos : Z
}.

(** [driver.Value]: what a destination cell can hold. *)
Inductive driver_Value :=
| DNil
| DInt (n : Z)
| DBool (b : bool)
| DBytes (b : bytes)
| DString (s : bytes).

(** ** Row and field decoding *)

Definition readFields (f : option Value) : outcome (list PsField) :=
  match f with
  | None => Err (Errorf (B "missing fields"))
  | Some _ =>
      Ok (map (fun v =>
                 {| Name := GetStringBytes (Some v) [B "name"];
                    Type_ := GetStringBytes (Some v) [B "type"];
                    Table := GetStringBytes (Some v) [B "table"];
                    ColumnLength := GetUint (Some v) [B "columnLength"];
                    Charset := GetUint (Some v) [B "charset"];
                    Flags := GetUint (Some v) [B "flags"] |})
              (GetArray f []))
  end.

(** The inner loop of [readRows] (lines 172-181): [dst] is the backing array
    of the decoded buffer up to its capacity, [pos] the running offset.  A
    slice expression [dst[pos : pos+u]] panics unless
    [pos <= pos+u <= cap(dst)], the sum taken in [uint64]. *)
Fixpoint readValues (dst : bytes) (lengths : list Value) (pos : Z)
  : outcome (list bytes) :=
  match lengths with
  | [] => Ok []
  | l :: rest =>
      match strconv.ParseUint (GetStringBytes (Some l) []) with
      | Ok u =>
          let hi := wrap_uint64 (pos + u) in
          if (pos <=? hi) && (hi <=? len dst)
          then match readValues dst rest hi with
               | Ok vals => Ok (slice dst pos hi :: vals)
               | other => other
               end
          else Panic slice_bounds_out_of_range
      | Err e => Err e
      | Panic p => Panic p
      end
  end.

(** The body of the outer loop (lines 161-183), one row.  [make] gives a
    zeroed array of [DecodedLen(len(b))] bytes, [Decode] fills its front;
    [dst[:n]] shortens the length and keeps the capacity. *)
Definition readRow (v : Value) : outcome PsRow :=
  let b := GetStringBytes (Some v) [B "values"] in
  let capacity := base64.DecodedLen (len b) in
  match base64.Decode b with
  | Ok decoded =>
      if len decoded <=? capacity
      then
        let dst := decoded ++ make_bytes (capacity - len decoded) in
        match readValues dst (GetArray (Some v) [B "lengths"]) 0 with
        | Ok vals => Ok {| Values := vals |}
        | Err e => Err e
        | Panic p => Panic p
        end
      else Panic slice_bounds_out_of_range
  | Err e => Err e
  | Panic p => Panic p
  end.

Fixpoint readRows_loop (r : list Value) : outcome (list PsRow) :=
  match r with
  | [] => Ok []
  | v :: rest =>
      match readRow v with
      | Ok row =>
          match readRows_loop rest with
          | Ok rows => Ok (row :: rows)
          | other => other
          end
      | Err e => Err e
      | Panic p => Panic p
      end
  end.

Definition readRows (v : option Value) : outcome (list PsRow) :=
  match v with
  | None => Err (Errorf (B "missing rows"))
  | Some _ => readRows_loop (GetArray v [])
  end.

(** ** The result cursor *)

(** The copy loop of [Next] (lines 292-294): [dest[i] = row.Values[i]] for
    [i] from 0, a panic at the first cell [dest] does not have; the cells
    written before it stay written. *)
Fixpoint copy_values (vals : list bytes) (dest : list driver_Value)
  : outcome unit * list driver_Value :=
  match vals with
  | [] => (Ok tt, dest)
  | v :: vals' =>
      match dest with
      | [] => (Panic index_out_of_range, dest)
      | _ :: dest' =>
          let (r, d) := copy_values vals' dest' in
          (r, DBytes v :: d)
      end
  end.

(** [Next]: the outcome, the cursor afterwards, the destination afterwards. *)
Definition Next (r : PsResults) (dest : list driver_Value)
  : outcome unit * PsResults * list driver_Value :=
  if len (Rows r) <? wrap_int (pos r + 1)
  then (Err io_EOF, r, dest)
  else
    match (if pos r <? 0 then None else nth_error (Rows r) (Z.to_nat (pos r))) with
    | None => (Panic index_out_of_range, r, dest)
    | Some row =>
        match copy_values (Values row) dest with
        | (Ok _, dest') =>
            (Ok tt,
             {| Fields := Fields r; Rows := Rows r; pos := wrap_int (pos r + 1) |},
             dest')
        | (Err e, dest') => (Err e, r, dest')
        | (Panic p, dest') => (Panic p, r, dest')
        end
    end.

Definition Columns (r : PsResults) : list bytes := map Name (Fields r).

(** ** The network and the libraries behind the connection *)

(** [context.Context], opaque to the driver. *)
Inductive Context :=
| context_Background
| context_Other (id : nat).

Record Request := {
  Method : bytes;
  URL : bytes;
  Header : list (bytes * bytes);
  Body : bytes
}.

(** What [io.ReadAll(resp.Body)] gives: the body, and the message of the
    read error if there is one. *)
Record Response := {
  StatusCode : Z;
  RespBody : bytes;
  ReadErr : option bytes
}.

(** What [req.Send] gives. *)
Inductive Reply :=
| Answer (r : Response)
| Failure (e : error).

Record Exchange := {
  ex_ctx : Context;
  ex_backend : bytes;
  ex_req : Request
}.

(** The backend as the driver sees it: the replies it will give to the
    requests to come, in order, and the requests sent so far. *)
Record Net := {
  replies : list Reply;
  sent : list Exchange
}.

(** The state a method on [*PsConn] runs in. *)
Record State := {
  conn : PsConn;
  net : Net
}.

Definition M (A : Type) : Type := State -> outcome A * State.

Definition ret {A} (a : A) : M A := fun st => (Ok a, st).

Definition bind {A C} (m : M A) (k : A -> M C) : M C :=
  fun st =>
    match m st with
    | (Ok a, st') => k a st'
    | (Err e, st') => (Err e, st')
    | (Panic p, st') => (Panic p, st')
    end.

Definition lift {A} (o : outcome A) : M A := fun st => (o, st).

Definition get_conn : M PsConn := fun st => (Ok (conn st), st).

Definition with_session (c : PsConn) (s : option bytes) : PsConn :=
  {| username := username c; password := password c;
     host := host c; backend := backend c; session := s |}.

(** [c.session = s]. *)
Definition set_session (s : option bytes) : M unit :=
  fun st => (Ok tt, {| conn := with_session (conn st) s; net := net st |}).

Declare Scope go_scope.
Delimit Scope go_scope with go.
Notation "x <- m ;; k" := (bind m (fun x => k))
  (at level 61, m at next level, right associativity) : go_scope.
Notation "m ;;; k" := (bind m (fun _ => k))
  (at level 61, right associativity) : go_scope.

Definition StatusOK : Z := 200.

(** [req.Send(ctx, backend)]: the request goes on the log and the next reply
    comes back; a backend with nothing left to say is a failed send. *)
Definition Send (ctx : Context) (req : Request) (backend_name : bytes)
  : M Response :=
  fun st =>
    let ex := {| ex_ctx := ctx; ex_backend := backend_name; ex_req := req |} in
    match replies (net st) with
    | [] =>
        (Err (NetError (B "no reply")),
         {| conn := conn st;
            net := {| replies := []; sent := sent (net st) ++ [ex] |} |})
    | Answer r :: rest =>
        (Ok r,
         {| conn := conn st;
            net := {| replies := rest; sent := sent (net st) ++ [ex] |} |})
    | Failure e :: rest =>
        (Err e,
         {| conn := conn st;
            net := {| replies := rest; sent := sent (net st) ++ [ex] |} |})
    end.

(** The library functions the connection calls and this development leaves
    open: any implementation can stand for them. *)
Class Libraries := {
  (** [fastjson.Parser.ParseBytes]: the parsed value, or the error. *)
  ParseBytes : bytes -> outcome Value;
  (** [fastjson.Object.MarshalTo(dst)] on a non-nil object. *)
  MarshalTo : Object -> bytes -> bytes;
  (** [json.Marshal] of a Go string. *)
  json_Marshal : bytes -> outcome bytes;
  (** The error of [url.Parse] inside [fsthttp.NewRequest], if any. *)
  url_Parse : bytes -> option error
}.

(** ** The connection *)

Inductive driver_Stmt : Type := .
Inductive driver_Tx : Type := .

(** [Close] has a value receiver: the assignment to [c.session] is made on a
    copy and the caller's connection keeps its session. *)
Definition Close : M unit := ret tt.

Definition Prepare (query : bytes) : M driver_Stmt :=
  lift (Err (Errorf (B "Prepare method not implemented"))).

Definition Begin : M driver_Tx :=
  lift (Err (Errorf (B "Begin method not implemented"))).

Definition Rollback : M driver_Stmt :=
  lift (Err (Errorf (B "Rollback method not implemented"))).

Definition quoted (s : string) : bytes := [x22] ++ B s ++ [x22].

(** [c.session[:]], empty on a nil session. *)
Definition session_bytes (c : PsConn) : bytes :=
  match session c with
  | Some s => s
  | None => []
  end.

Definition request_url (c : PsConn) (endpoint : bytes) : bytes :=
  B "https://" ++ host c ++ endpoint.

(** The body of the execute request (lines 220-224). *)
Definition execute_body (q : bytes) (c : PsConn) : bytes :=
  B "{" ++ quoted "query" ++ B ":" ++ q ++ B "," ++ quoted "session" ++ B ":"
    ++ session_bytes c ++ B "}".

(** Lines 247-270 of [QueryContext]: what a parsed response comes to, the
    [error] object looked at before the [result] object. *)
Definition readResponse (v : Value) : outcome PsResults :=
  match GetObject (Some v) [B "error"] with
  | Some jsonErr =>
      match Object_Get jsonErr (B "message") with
      | Some msg => Err (Errorf (GetStringBytes (Some msg) []))
      | None => Err unknownError
      end
  | None =>
      match GetObject (Some v) [B "result"] with
      | None => Err (Errorf (B "no result"))
      | Some result =>
          match readFields (Object_Get result (B "fields")) with
          | Ok f =>
              match readRows (Object_Get result (B "rows")) with
              | Ok r => Ok {| Fields := f; Rows := r; pos := 0 |}
              | Err e => Err e
              | Panic p => Panic p
              end
          | Err e => Err e
          | Panic p => Panic p
          end
      end
  end.

(** The [*Value] the parser hands back: nil when it reports an error. *)
Definition parsed_value (o : outcome Value) : option Value :=
  match o with
  | Ok v => Some v
  | _ => None
  end.

Section Connection.

Context {lib : Libraries}.
Local Open Scope go_scope.

Definition buildRequest (endpoint body : bytes) : M Request :=
  c <- get_conn ;;
  let u := request_url c endpoint in
  match url_Parse u with
  | Some e => lift (Err e)
  | None =>
      let auth := base64.EncodeToString (username c ++ B ":" ++ password c) in
      ret {| Method := executorMethod;
             URL := u;
             Header := [(B "Host", host c);
                        (B "Content-Type", jsonContentType);
                        (B "User-Agent", userAgent);
                        (B "Authorization", B "Basic " ++ auth)];
             Body := body |}
  end.

Definition sendRequest (ctx : Context) (req : Request) : M bytes :=
  c <- get_conn ;;
  resp <- Send ctx req (backend c) ;;
  match ReadErr resp with
  | Some msg =>
      lift (Err (Errorf (B "planetscale API error reading response body: " ++ msg)))
  | None =>
      if StatusCode resp =? StatusOK
      then ret (RespBody resp)
      else lift (Err (Errorf (B "planetscale API error: "
                                ++ itoa (StatusCode resp) ++ [x0a] ++ RespBody resp)))
  end.

(** [refreshSession]: the parser's error is dropped and [v] is nil when
    there is one; [GetObject] on a nil or session-less [v] is nil, and
    [MarshalTo] on that nil object dereferences it. *)
Definition refreshSession (ctx : Context) : M unit :=
  req <- buildRequest sessionEndpoint (B "{}") ;;
  respBody <- sendRequest ctx req ;;
  match ParseBytes respBody with
  | Panic p => lift (Panic p)
  | parsed =>
      let v := parsed_value parsed in
      set_session (Some []) ;;;
      match GetObject v [B "session"] with
      | Some o => set_session (Some (MarshalTo o []))
      | None => lift (Panic nil_pointer_dereference)
      end
  end.

(** Lines 209-213 of [QueryContext]. *)
Definition ensureSession (ctx : Context) : M unit :=
  c <- get_conn ;;
  match session c with
  | None => refreshSession ctx
  | Some _ => ret tt
  end.

(** Lines 215-270 of [QueryContext]: the execute exchange, the session
    taken from its response, the reading of the response. *)
Definition execute (ctx : Context) (query : bytes) : M PsResults :=
  q <- lift (json_Marshal query) ;;
  c <- get_conn ;;
  req <- buildRequest executorEndpoint (execute_body q c) ;;
  resp <- sendRequest ctx req ;;
  v <- lift (ParseBytes resp) ;;
  match GetObject (Some v) [B "session"] with
  | Some o => set_session (Some []) ;;; set_session (Some (MarshalTo o []))
  | None => ret tt
  end ;;;
  lift (readResponse v).

Definition QueryContext (ctx : Context) (query : bytes)
  (args : list driver_Value) : M PsResults :=
  ensureSession ctx ;;; execute ctx query.

Definition Query (query : bytes) (args : list driver_Value) : M PsResults :=
  QueryContext context_Background query args.

End Connection.

(** ** A reference implementation of the libraries

    A compact JSON reader and writer for documents whose strings carry no
    escapes, a [json.Marshal] for such strings and a URL check that refuses
    blanks and control bytes.  The theorems below hold for every
    implementation of [Libraries]; this one lets the driver run on concrete
    response bodies. *)

Module Reference.

Definition is_ws (c : byte) : bool :=
  Byte.eqb c " "%byte || Byte.eqb c x09 || Byte.eqb c x0a || Byte.eqb c x0d.

Fixpoint skipWS (s : bytes) : bytes :=
  match s with
  | c :: rest => if is_ws c then skipWS rest else s
  | [] => []
  end.

(** The characters of a string up to its closing quote. *)
Fixpoint read_string (s : bytes) : option (bytes * bytes) :=
  match s with
  | [] => None
  | c :: rest =>
      if Byte.eqb c x22 then Some ([], rest)
      else if Byte.eqb c "\"%byte || (byte_to_Z c <? 32) then None
      else match read_string rest with
           | Some (str, tail) => Some (c :: str, tail)
           | None => None
           end
  end.

Definition is_number_char (c : byte) : bool :=
  let n := byte_to_Z c in
  ((48 <=? n) && (n <=? 57)) || Byte.eqb c "-"%byte || Byte.eqb c "+"%byte
  || Byte.eqb c "."%byte || Byte.eqb c "e"%byte || Byte.eqb c "E"%byte.

Fixpoint read_number (s : bytes) : bytes * bytes :=
  match s with
  | c :: rest =>
      if is_number_char c
      then let (num, tail) := read_number rest in (c :: num, tail)
      else ([], s)
  | [] => ([], [])
  end.

Fixpoint strip_prefix (p s : bytes) : option bytes :=
  match p, s with
  | [], _ => Some s
  | x :: p', y :: s' => if Byte.eqb x y then strip_prefix p' s' else None
  | _ :: _, [] => None
  end.

Fixpoint read_value (fuel : nat) (s : bytes) : option (Value * bytes) :=
  match fuel with
  | O => None
  | S n =>
      match skipWS s with
      | [] => None
      | c :: rest =>
          if Byte.eqb c "{"%byte then
            match skipWS rest with
            | c' :: rest' =>
                if Byte.eqb c' "}"%byte then Some (VObject [], rest')
                else match read_members n rest with
                     | Some (kvs, tail) => Some (VObject kvs, tail)
                     | None => None
                     end
            | [] => None
            end
          else if Byte.eqb c "["%byte then
            match skipWS rest with
            | c' :: rest' =>
                if Byte.eqb c' "]"%byte then Some (VArray [], rest')
                else match read_elements n rest with
                     | Some (a, tail) => Some (VArray a, tail)
                     | None => None
                     end
            | [] => None
            end
          else if Byte.eqb c x22 then
            match read_string rest with
            | Some (str, tail) => Some (VString str, tail)
            | None => None
            end
          else
            match strip_prefix (B "true") (c :: rest),
                  strip_prefix (B "false") (c :: rest),
                  strip_prefix (B "null") (c :: rest) with
            | Some tail, _, _ => Some (VTrue, tail)
            | _, Some tail, _ => Some (VFalse, tail)
            | _, _, Some tail => Some (VNull, tail)
            | None, None, None =>
                match read_number (c :: rest) with
                | ([], _) => None
                | (num, tail) => Some (VNumber num, tail)
                end
            end
      end
  end
with read_members (fuel : nat) (s : bytes) : option (Object * bytes) :=
  match fuel with
  | O => None
  | S n =>
      match skipWS s with
      | [] => None
      | c :: rest =>
          if Byte.eqb c x22 then
            match read_string rest with
            | None => None
            | Some (k, r1) =>
                match skipWS r1 with
                | [] => None
                | c1 :: r2 =>
                    if Byte.eqb c1 ":"%byte then
                      match read_value n r2 with
                      | None => None
                      | Some (v, r3) =>
                          match skipWS r3 with
                          | [] => None
                          | c3 :: r4 =>
                              if Byte.eqb c3 ","%byte then
                                match read_members n r4 with
                                | Some (kvs, tail) => Some ((k, v) :: kvs, tail)
                                | None => None
                                end
                              else if Byte.eqb c3 "}"%byte then Some ([(k, v)], r4)
                              else None
                          end
                      end
                    else None
                end
            end
          else None
      end
  end
with read_elements (fuel : nat) (s : bytes) : option (list Value * bytes) :=
  match fuel with
  | O => None
  | S n =>
      match read_value n s with
      | None => None
      | Some (v, r1) =>
          match skipWS r1 with
          | [] => None
          | c :: r2 =>
              if Byte.eqb c ","%byte then
                match read_elements n r2 with
                | Some (a, tail) => Some (v :: a, tail)
                | None => None
                end
              else if Byte.eqb c "]"%byte then Some ([v], r2)
              else None
          end
      end
  end.

Definition parse (s : bytes) : outcome Value :=
  match read_value (S (length s)) s with
  | Some (v, tail) =>
      match skipWS tail with
      | [] => Ok v
      | _ => Err (JSONError (B "unexpected tail"))
      end
  | None => Err (JSONError (B "cannot parse JSON"))
  end.

Fixpoint write_value (v : Value) : bytes :=
  match v with
  | VObject kvs =>
      let fix members (kvs : list (bytes * Value)) : bytes :=
        match kvs with
        | [] => []
        | [(k, v)] => [x22] ++ k ++ [x22] ++ B ":" ++ write_value v
        | (k, v) :: rest =>
            [x22] ++ k ++ [x22] ++ B ":" ++ write_value v ++ B "," ++ members rest
        end in
      B "{" ++ members kvs ++ B "}"
  | VArray a =>
      let fix elements (a : list Value) : bytes :=
        match a with
        | [] => []
        | [v] => write_value v
        | v :: rest => write_value v ++ B "," ++ elements rest
        end in
      B "[" ++ elements a ++ B "]"
  | VString s => [x22] ++ s ++ [x22]
  | VNumber s => s
  | VTrue => B "true"
  | VFalse => B "false"
  | VNull => B "null"
  end.

Definition marshal_object (o : Object) (dst : bytes) : bytes :=
  dst ++ write_value (VObject o).

Definition marshal_string (s : bytes) : outcome bytes :=
  Ok ([x22] ++ flat_map (fun c => if Byte.eqb c x22 || Byte.eqb c "\"%byte
                                  then ["\"%byte; c] else [c]) s ++ [x22]).

Definition check_url (u : bytes) : option error :=
  if forallb (fun c => (32 <? byte_to_Z c) && negb (byte_to_Z c =? 127)) u
  then None
  else Some (URLError (B "invalid character in URL")).

Definition libraries : Libraries :=
  {| ParseBytes := parse;
     MarshalTo := marshal_object;
     json_Marshal := marshal_string;
     url_Parse := check_url |}.

End Reference.

(** A JSON text written with single quotes for the double ones. *)
Definition json (s : string) : bytes :=
  map (fun c => if Byte.eqb c "'"%byte then x22 else c) (B s).

(** ** Notions the statements use *)

Definition row_values (v : Value) : bytes := GetStringBytes (Some v) [B "values"].
Definition row_lengths (v : Value) : list Value := GetArray (Some v) [B "lengths"].

(** The decoded blob of a row. *)
Definition row_blob (v : Value) : outcome bytes := base64.Decode (row_values v).

(** The lengths of a row, each parsed as the decoder parses it. *)
Fixpoint parse_lengths (lengths : list Value) : outcome (list Z) :=
  match lengths with
  | [] => Ok []
  | l :: rest =>
      match strconv.ParseUint (GetStringBytes (Some l) []) with
      | Ok u =>
          match parse_lengths rest with
          | Ok us => Ok (u :: us)
          | other => other
          end
      | Err e => Err e
      | Panic p => Panic p
      end
  end.

Definition sum_Z (ls : list Z) : Z := fold_right Z.add 0 ls.

(** The blob cut into consecutive pieces of the given lengths. *)
Fixpoint cut (ls : list Z) (blob : bytes) : list bytes :=
  match ls with
  | [] => []
  | u :: rest => firstn (Z.to_nat u) blob :: cut rest (skipn (Z.to_nat u) blob)
  end.

(** A Go string or slice has a length that fits an [int]. *)
Definition go_len {A} (l : list A) : bool := len l <=? max_int.

(** The blob decodes, the lengths parse, and they sum to the blob's length. *)
Definition exact_row (v : Value) : bool :=
  go_len (row_values v) &&
  match row_blob v, parse_lengths (row_lengths v) with
  | Ok blob, Ok ls => sum_Z ls =? len blob
  | _, _ => false
  end.

(** The blob decodes, the lengths parse, and they sum to no more than the
    blob's length. *)
Definition within_row (v : Value) : bool :=
  go_len (row_values v) &&
  match row_blob v, parse_lengths (row_lengths v) with
  | Ok blob, Ok ls => sum_Z ls <=? len blob
  | _, _ => false
  end.

(** The blob decodes, the lengths parse, and their sum is not the blob's
    length. *)
Definition mismatch_row (v : Value) : bool :=
  go_len (row_values v) &&
  match row_blob v, parse_lengths (row_lengths v) with
  | Ok blob, Ok ls => negb (sum_Z ls =? len blob)
  | _, _ => false
  end.

(** A row object as the backend writes it. *)
Definition row_object (values : string) (lengths : list string) : Value :=
  VObject [(B "lengths", VArray (map (fun l => VString (B l)) lengths));
           (B "values", VString (B values))].

(** The network after one more request. *)
Definition after_send (ctx : Context) (req : Request) (st : State) : State :=
  {| conn := conn st;
     net := {| replies := tl (replies (net st));
               sent := sent (net st)
                       ++ [{| ex_ctx := ctx; ex_backend := backend (conn st);
                              ex_req := req |}] |} |}.

(** The request [buildRequest] makes when the URL parses. *)
Definition request_for (c : PsConn) (endpoint body : bytes) : Request :=
  {| Method := executorMethod;
     URL := request_url c endpoint;
     Header := [(B "Host", host c);
                (B "Content-Type", jsonContentType);
                (B "User-Agent", userAgent);
                (B "Authorization",
                 B "Basic " ++ base64.EncodeToString (username c ++ B ":" ++ password c))];
     Body := body |}.

Definition exchange (ctx : Context) (c : PsConn) (endpoint body : bytes) : Exchange :=
  {| ex_ctx := ctx; ex_backend := backend c; ex_req := request_for c endpoint body |}.

(** Everything about a connection but its session. *)
Definition same_target (c c' : PsConn) : Prop :=
  username c' = username c /\ password c' = password c /\
  host c' = host c /\ backend c' = backend c.

(** The connection after a response: its session replaced when the response
    carries a [session] object. *)
Definition rotated {lib : Libraries} (v : Value) (c : PsConn) : PsConn :=
  match GetObject (Some v) [B "session"] with
  | Some o => with_session c (Some (MarshalTo o []))
  | None => c
  end.

(** ** Sample inputs *)

Definition reply (status : Z) (body : string) : Reply :=
  Answer {| StatusCode := status; RespBody := json body; ReadErr := None |}.

Definition fresh_conn : PsConn :=
  {| username := B "u"; password := B "p"; host := B "db.example.com";
     backend := B "planetscale"; session := None |}.

Definition state_of (c : PsConn) (rs : list Reply) : State :=
  {| conn := c; net := {| replies := rs; sent := [] |} |}.

Definition sample_request : Request :=
  {| Method := executorMethod; URL := request_url fresh_conn executorEndpoint;
     Header := []; Body := B "{}" |}.

Definition sample_results : PsResults :=
  {| Fields := []; Rows := [{| Values := [B "a"; B "bc"] |}]; pos := 1 |}.

Definition active_conn : PsConn :=
  with_session fresh_conn (Some (json "{'id':'1'}")).

Definition select_1 : bytes := B "select 1".

(** A response that rotates the session and carries an error next to a
    result. *)
Definition rotating_error_body : string :=
  "{'session':{'id':'2'},'error':{'message':'boom'},'result':{'fields':[],'rows':[]}}".

Definition rotating_error_value : Value :=
  VObject [(B "session", VObject [(B "id", VString (B "2"))]);
           (B "error", VObject [(B "message", VString (B "boom"))]);
           (B "result", VObject [(B "fields", VArray []); (B "rows", VArray [])])].

Definition empty_result_body : string := "{'result':{'fields':[],'rows':[]}}".

Definition bootstrap_state : State :=
  state_of fresh_conn
    [reply 200 "{'session':{'id':'1'}}"; reply 200 empty_result_body;
     reply 200 empty_result_body; reply 200 empty_result_body].

Definition later_queries : list (Context * bytes * list driver_Value) :=
  [(context_Background, B "select 2", []); (context_Other 7, B "select 3", [DInt 1])].

(** The requests on a log that went to the endpoint [endpoint] of the
    connection's host. *)
Definition requests_to (c : PsConn) (endpoint : bytes) (log : list Exchange)
  : list Exchange :=
  filter (fun ex => bytes_eqb (URL (ex_req ex)) (request_url c endpoint)) log.

(** Queries run one after the other on the same connection; the outcomes
    are dropped, the state is threaded (a panic taken as recovered by the
    caller). *)
Fixpoint run_queries {lib : Libraries} (qs : list (Context * bytes * list driver_Value))
  (st : State) : State :=
  match qs with
  | [] => st
  | (ctx, q, args) :: rest => run_queries rest (snd (QueryContext ctx q args st))
  end.

(** [Next] called [n] times in a row on the same destination: the outcomes
    in order and the cursor at the end. *)
Fixpoint Next_times (n : nat) (r : PsResults) (dest : list driver_Value)
  : list (outcome unit) * PsResults * list driver_Value :=
  match n with
  | O => ([], r, dest)
  | S n' =>
      let '(o, r', dest') := Next r dest in
      let '(os, r'', dest'') := Next_times n' r' dest' in
      (o :: os, r'', dest'')
  end.

(** ** Notions for the further properties *)

(** The headers [buildRequest] puts on every request of a connection. *)
Definition driver_headers (c : PsConn) : list (bytes * bytes) :=
  [(B "Host", host c);
   (B "Content-Type", jsonContentType);
   (B "User-Agent", userAgent);
   (B "Authorization",
    B "Basic " ++ base64.EncodeToString (username c ++ B ":" ++ password c))].

(** An exchange as the driver makes them for the connection [c]: a POST to
    one of the two endpoints of the connection's host, sent to the
    connection's backend, under the connection's headers. *)
Definition driver_exchange (c : PsConn) (ex : Exchange) : Prop :=
  ex_backend ex = backend c /\
  Method (ex_req ex) = B "POST" /\
  (URL (ex_req ex) = request_url c sessionEndpoint \/
   URL (ex_req ex) = request_url c executorEndpoint) /\
  Header (ex_req ex) = driver_headers c.

(** The state after a request went out and a reply came back. *)
Definition exchanged (st : State) (ex : Exchange) (c : PsConn) : State :=
  {| conn := c;
     net := {| replies := tl (replies (net st)); sent := sent (net st) ++ [ex] |} |}.

(** A caller's loop over a cursor: [Next] is called, at most [fuel] times,
    until it returns something else than nil; the destinations seen after
    the successful calls, and the outcome that ended the loop. *)
Fixpoint read_all (fuel : nat) (r : PsResults) (dest : list driver_Value)
  : list (list driver_Value) * outcome unit :=
  match fuel with
  | O => ([], Ok tt)
  | S n =>
      match Next r dest with
      | (Ok _, r', dest') =>
          let (seen, o) := read_all n r' dest' in (dest' :: seen, o)
      | (Err e, _, _) => ([], Err e)
      | (Panic p, _, _) => ([], Panic p)
      end
  end.

(** A row as a backend encodes it: the values concatenated and put in base64,
    beside the given lengths. *)
Definition encode_row (lengths : list Value) (vals : list bytes) : Value :=
  VObject [(B "lengths", VArray lengths);
           (B "values", VString (base64.EncodeToString (concat vals)))].

(** A byte that [base64.Decode] neither reads nor skips. *)
Definition foreign_byte (c : byte) : bool :=
  match base64.decodeMap c with
  | Some _ => false
  | None => negb (base64.is_newline c) && negb (Byte.eqb c base64.padChar)
  end.

(** Sample inputs of the further properties. *)

Definition two_columns_value : Value :=
  VObject
    [(B "result",
      VObject
        [(B "fields",
          VArray [VObject [(B "name", VString (B "id")); (B "charset", VNumber (B "63"))];
                  VObject [(B "type", VString (B "VARCHAR"))]]);
         (B "rows", VArray [row_object "YWJj" ["1"; "2"]%string])])].

Definition quoted_select_1 : bytes := [x22] ++ select_1 ++ [x22].

Definition busy_then_ready : State :=
  state_of fresh_conn
    [reply 503 "busy"; reply 200 "{'session':{'id':'1'}}"; reply 200 empty_result_body].

Definition rotate_then_result : State :=
  state_of active_conn [reply 200 rotating_error_body; reply 200 empty_result_body].

Definition two_rows : PsResults :=
  {| Fields := [];
     Rows := [{| Values := [B "a"; B "bc"] |}; {| Values := [[]; B "d"] |}];
     pos := 0 |}.

Definition one_row_body : string :=
  "{'result':{'fields':[{'name':'id'},{'name':'tag'}],'rows':[{'lengths':['1','2'],'values':'YWJj'}]}}".

Definition one_row_fields : Value :=
  VArray [VObject [(B "name", VString (B "id"))];
          VObject [(B "name", VString (B "tag"))]].

(** * Properties *)

(** ** Bytes and integers *)

Lemma bytes_eqb_eq (a b : bytes) : bytes_eqb a b = true <-> a = b.
Proof.
  revert b; induction a as [|x a IH]; intros [|y b]; simpl; split;
    try congruence; try reflexivity.
  - rewrite andb_true_iff. intros [Hxy Hab].
    apply Byte.byte_dec_bl in Hxy. apply IH in Hab. congruence.
  - intros H; injection H as -> ->. rewrite andb_true_iff; split.
    + now apply Byte.byte_dec_lb.
    + now apply IH.
Qed.

Lemma bytes_eqb_refl (a : bytes) : bytes_eqb a a = true.
Proof. now apply bytes_eqb_eq. Qed.

Lemma bytes_eqb_neq (a b : bytes) : a <> b -> bytes_eqb a b = false.
Proof.
  intros H. destruct (bytes_eqb a b) eqn:E; [|reflexivity].
  apply bytes_eqb_eq in E. contradiction.
Qed.

Lemma len_app {A} (l1 l2 : list A) : len (l1 ++ l2) = len l1 + len l2.
Proof. unfold len. rewrite length_app. lia. Qed.

Lemma len_nonneg {A} (l : list A) : 0 <= len l.
Proof. unfold len. lia. Qed.

Lemma len_make_bytes (n : Z) : 0 <= n -> len (make_bytes n) = n.
Proof. intros H. unfold len, make_bytes. rewrite repeat_length. lia. Qed.

(** ** The decoded length stays within [DecodedLen] *)

Lemma quantum_length (dbuf : list Z) (dlen : nat) :
  (1 <= dlen <= 4)%nat -> length (base64.quantum dbuf dlen) = (dlen - 1)%nat.
Proof.
  intros H. unfold base64.quantum. rewrite firstn_length_le; simpl; lia.
Qed.

Lemma skip_newlines_cons (src : bytes) (c : byte) (rest : bytes) :
  base64.skip_newlines src = c :: rest -> (1 <= length src)%nat.
Proof. destruct src; simpl; [discriminate | lia]. Qed.

Lemma decode_from_quanta (src : bytes) :
  forall dbuf out,
    base64.decode_from src dbuf = Ok out ->
    (length dbuf < 4)%nat ->
    exists q, len out <= 3 * q /\ 4 * q <= len src + len dbuf.
Proof.
  induction src as [|c rest IH]; intros dbuf out H Hj; cbn [base64.decode_from] in H.
  - destruct dbuf; [|discriminate]. injection H as <-. exists 0. unfold len; cbn [length]; lia.
  - destruct (base64.decodeMap c) as [v|].
    + destruct (length (dbuf ++ [v]) =? 4)%nat eqn:E4.
      * apply Nat.eqb_eq in E4.
        destruct (base64.decode_from rest []) as [out'| |] eqn:Er; try discriminate.
        assert (out = base64.quantum (dbuf ++ [v]) 4 ++ out') by congruence; subst out.
        destruct (IH [] out' Er) as [q [Hq1 Hq2]]; [simpl; lia|].
        exists (q + 1). rewrite len_app. unfold len in *.
        rewrite quantum_length by lia. rewrite length_app in E4. cbn [length] in *. lia.
      * apply Nat.eqb_neq in E4. rewrite length_app in E4. simpl in E4.
        destruct (IH _ _ H) as [q [Hq1 Hq2]]; [rewrite length_app; simpl; lia|].
        exists q. unfold len in *. rewrite length_app in Hq2. cbn [length] in *. lia.
    + destruct (base64.is_newline c).
      * destruct (IH _ _ H Hj) as [q [Hq1 Hq2]].
        exists q. unfold len in *. cbn [length]. lia.
      * destruct (Byte.eqb c base64.padChar); [|discriminate].
        destruct (length dbuf) as [|[|[|[|n]]]] eqn:El; try discriminate.
        -- destruct (base64.skip_newlines rest) as [|c2 rest2] eqn:Es; [discriminate|].
           apply skip_newlines_cons in Es.
           destruct (Byte.eqb c2 base64.padChar); [|discriminate].
           destruct (base64.skip_newlines rest2); [|discriminate].
           assert (out = base64.quantum dbuf 2) by congruence; subst out.
           exists 1. unfold len.
           rewrite quantum_length by lia. cbn [length]. lia.
        -- destruct (base64.skip_newlines rest); [|discriminate].
           assert (out = base64.quantum dbuf 3) by congruence; subst out.
           exists 1. unfold len.
           rewrite quantum_length by lia. cbn [length]. lia.
Qed.

Lemma Decode_len (src out : bytes) :
  base64.Decode src = Ok out -> len out <= base64.DecodedLen (len src).
Proof.
  intros H. apply decode_from_quanta in H; [|simpl; lia].
  destruct H as [q [H1 H2]]. unfold base64.DecodedLen.
  assert (q <= len src / 4).
  { apply Z.div_le_lower_bound; [lia|]. unfold len in *. cbn [length] in H2. lia. }
  lia.
Qed.

Lemma DecodedLen_le (n : Z) : 0 <= n -> base64.DecodedLen n <= n.
Proof.
  intros H. unfold base64.DecodedLen.
  pose proof (Z.mul_div_le n 4 ltac:(lia)). lia.
Qed.

(** ** Parsed lengths are unsigned 64-bit values *)

Lemma wrap_uint64_range (z : Z) : 0 <= wrap_uint64 z < uint64_modulus.
Proof. unfold wrap_uint64, uint64_modulus. apply Z.mod_pos_bound. lia. Qed.

Lemma wrap_uint64_small (z : Z) : 0 <= z < uint64_modulus -> wrap_uint64 z = z.
Proof. intros H. unfold wrap_uint64. now apply Z.mod_small. Qed.

Lemma ParseUint_loop_range (s0 s : bytes) :
  forall n u, 0 <= n < uint64_modulus ->
    strconv.ParseUint_loop s0 s n = Ok u -> 0 <= u < uint64_modulus.
Proof.
  induction s as [|c rest IH]; intros n u Hn H; cbn [strconv.ParseUint_loop] in H.
  - injection H as <-. exact Hn.
  - destruct (strconv.digit c) as [d|]; [|discriminate].
    destruct (max_uint64 / 10 + 1 <=? n); [discriminate|].
    cbv zeta in H.
    destruct (_ || _) in H; [discriminate|].
    eapply IH; [|exact H]. apply wrap_uint64_range.
Qed.

Lemma ParseUint_range (s : bytes) (u : Z) :
  strconv.ParseUint s = Ok u -> 0 <= u < uint64_modulus.
Proof.
  unfold strconv.ParseUint. destruct s; [discriminate|].
  apply ParseUint_loop_range. unfold uint64_modulus. lia.
Qed.

Lemma parse_lengths_nonneg (lengths : list Value) :
  forall ls, parse_lengths lengths = Ok ls -> Forall (fun u => 0 <= u) ls.
Proof.
  induction lengths as [|l rest IH]; intros ls H; cbn [parse_lengths] in H.
  - injection H as <-. constructor.
  - destruct (strconv.ParseUint (GetStringBytes (Some l) [])) as [u| |] eqn:Eu;
      try discriminate.
    destruct (parse_lengths rest) as [us| |]; try discriminate.
    injection H as <-. constructor.
    + apply ParseUint_range in Eu. lia.
    + now apply IH.
Qed.

Lemma parse_lengths_length (lengths : list Value) :
  forall ls, parse_lengths lengths = Ok ls -> length ls = length lengths.
Proof.
  induction lengths as [|l rest IH]; intros ls H; cbn [parse_lengths] in H.
  - injection H as <-. reflexivity.
  - destruct (strconv.ParseUint (GetStringBytes (Some l) [])); try discriminate.
    destruct (parse_lengths rest) as [us| |]; try discriminate.
    injection H as <-. simpl. f_equal. now apply IH.
Qed.

Lemma sum_Z_nonneg (ls : list Z) : Forall (fun u => 0 <= u) ls -> 0 <= sum_Z ls.
Proof. induction 1; simpl; lia. Qed.

(** ** Cutting a buffer into consecutive pieces *)

Lemma firstn_plus {A} (n m : nat) (l : list A) :
  firstn (n + m) l = firstn n l ++ firstn m (skipn n l).
Proof.
  revert l; induction n as [|n IH]; intros l; [reflexivity|].
  destruct l as [|x l]; cbn [Nat.add firstn skipn].
  - now rewrite firstn_nil.
  - now rewrite IH.
Qed.

Lemma cut_length (ls : list Z) : forall blob, length (cut ls blob) = length ls.
Proof. induction ls as [|u us IH]; intros blob; simpl; [|rewrite IH]; reflexivity. Qed.

Lemma cut_app (ls : list Z) :
  forall blob tail,
    Forall (fun u => 0 <= u) ls -> sum_Z ls <= len blob ->
    cut ls (blob ++ tail) = cut ls blob.
Proof.
  induction ls as [|u us IH]; intros blob tail Hpos Hsum; [reflexivity|].
  inversion Hpos as [|? ? Hu Hus]; subst. cbn [sum_Z fold_right] in Hsum.
  fold (sum_Z us) in Hsum. pose proof (sum_Z_nonneg us Hus) as Hs.
  assert (Hle : (Z.to_nat u <= length blob)%nat) by (unfold len in Hsum; lia).
  cbn [cut]. rewrite firstn_app, skipn_app.
  replace (Z.to_nat u - length blob)%nat with 0%nat by lia.
  cbn [firstn skipn]. rewrite app_nil_r. f_equal.
  apply IH; [exact Hus|]. unfold len in *. rewrite length_skipn. lia.
Qed.

Lemma concat_cut (ls : list Z) :
  forall blob,
    Forall (fun u => 0 <= u) ls -> sum_Z ls <= len blob ->
    concat (cut ls blob) = firstn (Z.to_nat (sum_Z ls)) blob.
Proof.
  induction ls as [|u us IH]; intros blob Hpos Hsum; [reflexivity|].
  inversion Hpos as [|? ? Hu Hus]; subst. cbn [sum_Z fold_right] in *.
  fold (sum_Z us) in *. pose proof (sum_Z_nonneg us Hus) as Hs.
  cbn [cut concat]. rewrite IH; [|exact Hus|].
  - rewrite Z2Nat.inj_add by lia. now rewrite firstn_plus.
  - unfold len in *. rewrite length_skipn. lia.
Qed.

Lemma concat_cut_all (ls : list Z) (blob : bytes) :
  Forall (fun u => 0 <= u) ls -> sum_Z ls = len blob ->
  concat (cut ls blob) = blob.
Proof.
  intros Hpos Hsum. rewrite concat_cut by (assumption || lia).
  rewrite Hsum. unfold len. rewrite Nat2Z.id. apply firstn_all.
Qed.

(** ** The row decoder on lengths that stay within the blob *)

Lemma readValues_cut (dst : bytes) (lengths : list Value) :
  forall ls pos,
    parse_lengths lengths = Ok ls ->
    0 <= pos -> pos + sum_Z ls <= len dst -> len dst < uint64_modulus ->
    readValues dst lengths pos = Ok (cut ls (skipn (Z.to_nat pos) dst)).
Proof.
  induction lengths as [|l rest IH]; intros ls pos Hp Hpos Hsum Hdst;
    cbn [parse_lengths] in Hp; cbn [readValues].
  - injection Hp as <-. reflexivity.
  - destruct (strconv.ParseUint (GetStringBytes (Some l) [])) as [u| |] eqn:Eu;
      try discriminate.
    destruct (parse_lengths rest) as [us| |] eqn:Eus; try discriminate.
    injection Hp as <-.
    pose proof (ParseUint_range _ _ Eu) as Hu.
    pose proof (sum_Z_nonneg us (parse_lengths_nonneg _ _ Eus)) as Hs.
    cbn [sum_Z fold_right] in Hsum. fold (sum_Z us) in Hsum.
    cbv zeta. rewrite wrap_uint64_small by lia.
    replace ((pos <=? pos + u) && (pos + u <=? len dst)) with true
      by (symmetry; apply andb_true_iff; split; apply Z.leb_le; lia).
    rewrite (IH us (pos + u)) by (reflexivity || lia).
    unfold slice. cbn [cut].
    replace (pos + u - pos) with u by lia.
    rewrite skipn_skipn. rewrite Z2Nat.inj_add by lia.
    now rewrite (Nat.add_comm (Z.to_nat pos)).
Qed.

Lemma readRow_cut (v : Value) (blob : bytes) (ls : list Z) :
  go_len (row_values v) = true ->
  row_blob v = Ok blob ->
  parse_lengths (row_lengths v) = Ok ls ->
  sum_Z ls <= len blob ->
  readRow v = Ok {| Values := cut ls blob |}.
Proof.
  unfold go_len, row_blob, row_values, row_lengths, readRow.
  intros Hgo Hb Hp Hsum. apply Z.leb_le in Hgo. rewrite Hb.
  pose proof (Decode_len _ _ Hb) as Hcap.
  pose proof (DecodedLen_le _ (len_nonneg (GetStringBytes (Some v) [B "values"]))) as Hle.
  pose proof (len_nonneg blob) as Hnn.
  replace (len blob <=? base64.DecodedLen (len (GetStringBytes (Some v) [B "values"])))
    with true by (symmetry; apply Z.leb_le; lia).
  rewrite (readValues_cut _ _ ls 0 Hp).
  - cbn [Z.to_nat skipn]. rewrite cut_app; [reflexivity| |exact Hsum].
    eapply parse_lengths_nonneg; eassumption.
  - lia.
  - rewrite len_app. rewrite len_make_bytes by lia. lia.
  - rewrite len_app, len_make_bytes by lia.
    unfold max_int, uint64_modulus in *. lia.
Qed.

(** ** The row decoder *)

Lemma readRows_loop_rows (P : Value -> bool) (rs : list Value) :
  (forall r, P r = true -> within_row r = true) ->
  forallb P rs = true ->
  exists rows,
    readRows_loop rs = Ok rows /\
    Forall2 (fun r row =>
               P r = true /\
               exists blob ls,
                 row_blob r = Ok blob /\ parse_lengths (row_lengths r) = Ok ls /\
                 Values row = cut ls blob)
            rs rows.
Proof.
  intros HP. induction rs as [|r rs IH]; intros Hall; cbn [forallb] in Hall.
  - exists []. split; [reflexivity | constructor].
  - apply andb_true_iff in Hall as [Hr Hrs].
    destruct (IH Hrs) as [rows [Hrows Hall2]].
    pose proof (HP r Hr) as Hw. unfold within_row in Hw.
    apply andb_true_iff in Hw as [Hgo Hw].
    destruct (row_blob r) as [blob| |] eqn:Eb; try discriminate.
    destruct (parse_lengths (row_lengths r)) as [ls| |] eqn:El; try discriminate.
    apply Z.leb_le in Hw.
    exists ({| Values := cut ls blob |} :: rows). split.
    + cbn [readRows_loop]. rewrite (readRow_cut r blob ls Hgo Eb El Hw).
      now rewrite Hrows.
    + constructor; [|exact Hall2]. split; [exact Hr|].
      exists blob, ls. now repeat split.
Qed.

Lemma exact_row_within (r : Value) : exact_row r = true -> within_row r = true.
Proof.
  unfold exact_row, within_row. intros H.
  apply andb_true_iff in H as [Hgo H]. rewrite Hgo. cbn [andb].
  destruct (row_blob r); try discriminate.
  destruct (parse_lengths (row_lengths r)); try discriminate.
  apply Z.eqb_eq in H. apply Z.leb_le. lia.
Qed.

(** C2. When every row of a rows array decodes to a blob and carries
    lengths that parse as unsigned integers and sum exactly to the length of
    that blob, [readRows] succeeds; each decoded row has as many values as
    the row has lengths, the values are the consecutive pieces of the blob
    in the order of the lengths, and their concatenation is the whole
    blob. *)
Theorem readRows_roundtrip (v : Value) :
  forallb exact_row (GetArray (Some v) []) = true ->
  exists rows,
    readRows (Some v) = Ok rows /\
    Forall2 (fun r row =>
               exists blob ls,
                 row_blob r = Ok blob /\ parse_lengths (row_lengths r) = Ok ls /\
                 Values row = cut ls blob /\
                 length (Values row) = length (row_lengths r) /\
                 concat (Values row) = blob)
            (GetArray (Some v) []) rows.
Proof.
  intros Hall.
  destruct (readRows_loop_rows exact_row _ exact_row_within Hall) as [rows [Hrows H2]].
  exists rows. split; [exact Hrows|].
  eapply Forall2_impl; [|exact H2].
  intros r row [Hex [blob [ls [Hb [Hl Hv]]]]].
  exists blob, ls. repeat split; try assumption.
  - rewrite Hv, cut_length. eapply parse_lengths_length; eassumption.
  - rewrite Hv. apply concat_cut_all.
    + eapply parse_lengths_nonneg; eassumption.
    + unfold exact_row in Hex. rewrite Hb, Hl in Hex.
      apply andb_true_iff in Hex as [_ Hex]. now apply Z.eqb_eq.
Qed.

Lemma readRows_roundtrip_witness :
  exists rows,
    readRows (Some (VArray [row_object "YWJjZA==" ["1"; "0"; "3"]%string; row_object "" []]))
    = Ok rows /\
    Forall2 (fun r row =>
               exists blob ls,
                 row_blob r = Ok blob /\ parse_lengths (row_lengths r) = Ok ls /\
                 Values row = cut ls blob /\
                 length (Values row) = length (row_lengths r) /\
                 concat (Values row) = blob)
            (GetArray (Some (VArray [row_object "YWJjZA==" ["1"; "0"; "3"]%string;
                                     row_object "" []])) [])
            rows.
Proof. apply readRows_roundtrip. reflexivity. Defined.

(** C1, as the code has it.  The decoder compares the sum of the lengths
    with nothing.  When every row decodes to a blob and carries lengths
    that parse and sum to no more than the length of that blob, [readRows]
    succeeds: the values of a row are the consecutive pieces of its blob,
    they cover the first [sum] bytes, and the bytes after them are left
    out of the row without an error. *)
Theorem readRows_within (v : Value) :
  forallb within_row (GetArray (Some v) []) = true ->
  exists rows,
    readRows (Some v) = Ok rows /\
    Forall2 (fun r row =>
               exists blob ls,
                 row_blob r = Ok blob /\ parse_lengths (row_lengths r) = Ok ls /\
                 Values row = cut ls blob /\
                 blob = concat (Values row) ++ skipn (Z.to_nat (sum_Z ls)) blob /\
                 len (skipn (Z.to_nat (sum_Z ls)) blob) = len blob - sum_Z ls)
            (GetArray (Some v) []) rows.
Proof.
  intros Hall.
  destruct (readRows_loop_rows within_row _ (fun _ H => H) Hall) as [rows [Hrows H2]].
  exists rows. split; [exact Hrows|].
  eapply Forall2_impl; [|exact H2].
  intros r row [Hw [blob [ls [Hb [Hl Hv]]]]].
  unfold within_row in Hw. rewrite Hb, Hl in Hw.
  apply andb_true_iff in Hw as [_ Hw]. apply Z.leb_le in Hw.
  pose proof (parse_lengths_nonneg _ _ Hl) as Hpos.
  pose proof (sum_Z_nonneg _ Hpos) as Hs.
  exists blob, ls. repeat split; try assumption.
  - rewrite Hv, concat_cut by assumption. symmetry. apply firstn_skipn.
  - unfold len in *. rewrite length_skipn. lia.
Qed.

Lemma readRows_within_witness :
  exists rows,
    readRows (Some (VArray [row_object "YWJjZA==" ["1"; "2"]%string])) = Ok rows /\
    Forall2 (fun r row =>
               exists blob ls,
                 row_blob r = Ok blob /\ parse_lengths (row_lengths r) = Ok ls /\
                 Values row = cut ls blob /\
                 blob = concat (Values row) ++ skipn (Z.to_nat (sum_Z ls)) blob /\
                 len (skipn (Z.to_nat (sum_Z ls)) blob) = len blob - sum_Z ls)
            (GetArray (Some (VArray [row_object "YWJjZA==" ["1"; "2"]%string])) []) rows.
Proof. apply readRows_within. reflexivity. Defined.

(** C1 as stated fails.  The blob of the first row is the three bytes
    [abc] and its only length is 1: the lengths do not sum to the blob's
    length, and [readRows] returns a row holding [a], no error.  The second
    row asks for 4 bytes of the same blob and [readRows] panics. *)
Lemma readRows_mismatch_counterexample :
  mismatch_row (row_object "YWJj" ["1"]%string) = true /\
  readRows (Some (VArray [row_object "YWJj" ["1"]%string])) = Ok [{| Values := [B "a"] |}] /\
  mismatch_row (row_object "YWJj" ["4"]%string) = true /\
  readRows (Some (VArray [row_object "YWJj" ["4"]%string])) = Panic slice_bounds_out_of_range.
Proof. repeat split; reflexivity. Qed.

(** ** One exchange at a time *)

Section Steps.

Context {lib : Libraries}.

Lemma buildRequest_eq (endpoint body : bytes) (st : State) :
  buildRequest endpoint body st =
    (match url_Parse (request_url (conn st) endpoint) with
     | Some e => Err e
     | None => Ok (request_for (conn st) endpoint body)
     end, st).
Proof.
  unfold buildRequest, bind, get_conn, lift, ret.
  destruct (url_Parse (request_url (conn st) endpoint)); reflexivity.
Qed.

Lemma sendRequest_state (ctx : Context) (req : Request) (st : State) :
  snd (sendRequest ctx req st) = after_send ctx req st.
Proof.
  unfold sendRequest, bind, get_conn, Send, lift, ret, after_send.
  destruct (replies (net st)) as [|[r|e] rest]; cbn [fst snd tl]; try reflexivity.
  destruct (ReadErr r); [reflexivity|].
  destruct (StatusCode r =? StatusOK); reflexivity.
Qed.

Lemma sendRequest_answer (ctx : Context) (req : Request) (st : State)
  (r : Response) (rest : list Reply) :
  replies (net st) = Answer r :: rest ->
  ReadErr r = None ->
  sendRequest ctx req st =
    (if StatusCode r =? 200
     then Ok (RespBody r)
     else Err (Errorf (B "planetscale API error: " ++ itoa (StatusCode r)
                         ++ [x0a] ++ RespBody r)),
     after_send ctx req st).
Proof.
  intros Hr He. rewrite (surjective_pairing (sendRequest ctx req st)).
  rewrite sendRequest_state. f_equal.
  unfold sendRequest, bind, get_conn, Send, lift, ret, StatusOK.
  rewrite Hr. cbn [fst snd]. rewrite He.
  destruct (StatusCode r =? 200); reflexivity.
Qed.

(** [execute] when the backend answers 200 with a body that parses. *)
Lemma execute_answered (ctx : Context) (query q : bytes) (st : State)
  (r : Response) (rest : list Reply) (v : Value) :
  json_Marshal query = Ok q ->
  url_Parse (request_url (conn st) executorEndpoint) = None ->
  replies (net st) = Answer r :: rest ->
  ReadErr r = None ->
  StatusCode r = 200 ->
  ParseBytes (RespBody r) = Ok v ->
  execute ctx query st =
    (readResponse v,
     let st' := after_send ctx
                  (request_for (conn st) executorEndpoint (execute_body q (conn st))) st in
     {| conn := rotated v (conn st'); net := net st' |}).
Proof.
  intros Hq Hu Hr He Hs Hp. unfold execute.
  unfold bind at 1. unfold lift at 1. rewrite Hq.
  unfold bind at 1. unfold get_conn at 1.
  unfold bind at 1. rewrite buildRequest_eq, Hu.
  unfold bind at 1. rewrite (sendRequest_answer _ _ _ r rest Hr He), Hs.
  cbn [Z.eqb Pos.eqb].
  unfold bind at 1. unfold lift at 1.
  change (conn (after_send ctx
            (request_for (conn st) executorEndpoint (execute_body q (conn st))) st))
    with (conn st).
  cbv zeta. rewrite Hp. unfold rotated.
  destruct (GetObject (Some v) [B "session"]) as [o|];
    unfold bind, set_session, ret, lift, with_session; cbn [conn net fst snd
      username password host backend session]; reflexivity.
Qed.


Lemma same_target_refl (c : PsConn) : same_target c c.
Proof. now repeat split. Qed.

Lemma same_target_trans (c1 c2 c3 : PsConn) :
  same_target c1 c2 -> same_target c2 c3 -> same_target c1 c3.
Proof. unfold same_target. intuition congruence. Qed.

Lemma same_target_url (c c' : PsConn) (endpoint : bytes) :
  same_target c c' -> request_url c' endpoint = request_url c endpoint.
Proof. intros (_ & _ & Hh & _). unfold request_url. now rewrite Hh. Qed.

(** [refreshSession] unfolded. *)
Lemma refreshSession_eq (ctx : Context) (st : State) :
  refreshSession ctx st =
    match url_Parse (request_url (conn st) sessionEndpoint) with
    | Some e => (Err e, st)
    | None =>
        let req := request_for (conn st) sessionEndpoint (B "{}") in
        let st1 := after_send ctx req st in
        match fst (sendRequest ctx req st) with
        | Ok body =>
            match ParseBytes body with
            | Panic p => (Panic p, st1)
            | parsed =>
                match GetObject (parsed_value parsed) [B "session"] with
                | Some o =>
                    (Ok tt, {| conn := with_session (conn st) (Some (MarshalTo o []));
                               net := net st1 |})
                | None =>
                    (Panic nil_pointer_dereference,
                     {| conn := with_session (conn st) (Some []); net := net st1 |})
                end
            end
        | Err e => (Err e, st1)
        | Panic p => (Panic p, st1)
        end
    end.
Proof.
  unfold refreshSession. unfold bind at 1. rewrite buildRequest_eq.
  destruct (url_Parse (request_url (conn st) sessionEndpoint)) as [e|];
    [reflexivity|].
  unfold bind at 1. cbv zeta.
  rewrite (surjective_pairing (sendRequest ctx _ st)), sendRequest_state.
  cbn [fst].
  destruct (fst (sendRequest ctx _ st)) as [body|e|p]; try reflexivity.
  destruct (ParseBytes body) as [v|e|p]; try reflexivity;
    unfold bind, set_session, parsed_value; cbn [fst snd conn net];
    match goal with
    | |- context [GetObject ?x ?k] => destruct (GetObject x k)
    end; reflexivity.
Qed.

(** [execute] unfolded. *)
Lemma execute_eq (ctx : Context) (query : bytes) (st : State) :
  execute ctx query st =
    match json_Marshal query with
    | Ok q =>
        match url_Parse (request_url (conn st) executorEndpoint) with
        | Some e => (Err e, st)
        | None =>
            let req := request_for (conn st) executorEndpoint (execute_body q (conn st)) in
            let st1 := after_send ctx req st in
            match fst (sendRequest ctx req st) with
            | Ok body =>
                match ParseBytes body with
                | Ok v => (readResponse v, {| conn := rotated v (conn st); net := net st1 |})
                | Err e => (Err e, st1)
                | Panic p => (Panic p, st1)
                end
            | Err e => (Err e, st1)
            | Panic p => (Panic p, st1)
            end
        end
    | Err e => (Err e, st)
    | Panic p => (Panic p, st)
    end.
Proof.
  unfold execute. unfold bind at 1. unfold lift at 1.
  destruct (json_Marshal query) as [q|e|p]; try reflexivity.
  unfold bind at 1. unfold get_conn at 1.
  unfold bind at 1. rewrite buildRequest_eq.
  destruct (url_Parse (request_url (conn st) executorEndpoint)) as [e|];
    [reflexivity|].
  unfold bind at 1. cbv zeta.
  rewrite (surjective_pairing (sendRequest ctx _ st)), sendRequest_state.
  cbn [fst].
  destruct (fst (sendRequest ctx _ st)) as [body|e|p]; try reflexivity.
  unfold bind at 1. unfold lift at 1.
  destruct (ParseBytes body) as [v|e|p]; try reflexivity.
  unfold rotated.
  destruct (GetObject (Some v) [B "session"]) as [o|];
    unfold bind, set_session, ret, lift, with_session, after_send;
    cbn [fst snd conn net sent replies session username password host backend];
    reflexivity.
Qed.

(** [refreshSession], all cases: what it returns and the state it leaves. *)
Lemma refreshSession_cases (ctx : Context) (st : State) :
  let st' := snd (refreshSession ctx st) in
  same_target (conn st) (conn st') /\
  match url_Parse (request_url (conn st) sessionEndpoint) with
  | Some _ => st' = st
  | None =>
      sent (net st') = sent (net st) ++ [exchange ctx (conn st) sessionEndpoint (B "{}")] /\
      replies (net st') = tl (replies (net st))
  end /\
  (fst (refreshSession ctx st) = Ok tt -> session (conn st') <> None).
Proof.
  cbv zeta. rewrite refreshSession_eq.
  destruct (url_Parse (request_url (conn st) sessionEndpoint)) as [e|].
  - cbn [fst snd]. split; [apply same_target_refl|].
    split; [reflexivity | discriminate].
  - cbv zeta.
    destruct (fst (sendRequest ctx _ st)) as [body|e|p];
      [|cbn [fst snd]; repeat split; discriminate ..].
    destruct (ParseBytes body) as [v|e|p];
      [| |cbn [fst snd]; repeat split; discriminate];
      match goal with
      | |- context [GetObject ?x ?k] => destruct (GetObject x k)
      end;
      cbn [fst snd conn net sent replies after_send with_session session];
      repeat split; discriminate.
Qed.

(** [execute], all cases: what it leaves behind. *)
Lemma execute_cases (ctx : Context) (query : bytes) (st : State) :
  let st' := snd (execute ctx query st) in
  same_target (conn st) (conn st') /\
  (session (conn st) <> None -> session (conn st') <> None) /\
  (st' = st \/
   exists q,
     sent (net st') = sent (net st)
                      ++ [exchange ctx (conn st) executorEndpoint (execute_body q (conn st))] /\
     replies (net st') = tl (replies (net st))).
Proof.
  cbv zeta. rewrite execute_eq.
  destruct (json_Marshal query) as [q|e|p];
    [|cbn [fst snd]; split; [apply same_target_refl|split; [tauto|now left]] ..].
  destruct (url_Parse (request_url (conn st) executorEndpoint)) as [e|];
    [cbn [fst snd]; split; [apply same_target_refl|split; [tauto|now left]]|].
  cbv zeta.
  destruct (fst (sendRequest ctx _ st)) as [body|e|p];
    [|cbn [fst snd]; split; [apply same_target_refl|split; [tauto|right; exists q; now split]] ..].
  destruct (ParseBytes body) as [v|e|p];
    [|cbn [fst snd]; split; [apply same_target_refl|split; [tauto|right; exists q; now split]] ..].
  unfold rotated.
  destruct (GetObject (Some v) [B "session"]) as [o|];
    cbn [fst snd conn net sent replies after_send with_session session];
    (split; [now repeat split|split; [try tauto; discriminate|right; exists q; now split]]).
Qed.

End Steps.

(** ** Queries *)

Section Queries.

Context {lib : Libraries}.

Lemma QueryContext_eq (ctx : Context) (query : bytes) (args : list driver_Value)
  (st : State) :
  QueryContext ctx query args st =
    match session (conn st) with
    | Some _ => execute ctx query st
    | None =>
        match refreshSession ctx st with
        | (Ok _, st1) => execute ctx query st1
        | (Err e, st1) => (Err e, st1)
        | (Panic p, st1) => (Panic p, st1)
        end
    end.
Proof.
  unfold QueryContext, ensureSession. unfold bind at 1. unfold bind at 1.
  unfold get_conn. destruct (session (conn st)); [reflexivity|].
  destruct (refreshSession ctx st) as [[u|e|p] st1]; reflexivity.
Qed.

Lemma QueryContext_after_ensure (ctx : Context) (query : bytes)
  (args : list driver_Value) (st st1 : State) :
  ensureSession ctx st = (Ok tt, st1) ->
  QueryContext ctx query args st = execute ctx query st1.
Proof. intros H. unfold QueryContext, bind. now rewrite H. Qed.

Lemma endpoints_differ (c : PsConn) :
  request_url c executorEndpoint <> request_url c sessionEndpoint.
Proof.
  unfold request_url, executorEndpoint, sessionEndpoint. intros H.
  do 3 apply app_inv_head in H. discriminate H.
Qed.

Lemma requests_to_app (c : PsConn) (endpoint : bytes) (l1 l2 : list Exchange) :
  requests_to c endpoint (l1 ++ l2)
  = requests_to c endpoint l1 ++ requests_to c endpoint l2.
Proof. apply filter_app. Qed.

Lemma requests_to_execute (c c' : PsConn) (ctx : Context) (body : bytes) :
  same_target c c' ->
  requests_to c sessionEndpoint [exchange ctx c' executorEndpoint body] = [].
Proof.
  intros Hc. unfold requests_to, exchange, request_for. cbn [filter ex_req URL].
  rewrite (same_target_url c c' _ Hc).
  now rewrite (bytes_eqb_neq _ _ (endpoints_differ c)).
Qed.

Lemma requests_to_session (c : PsConn) (ctx : Context) (body : bytes) :
  requests_to c sessionEndpoint [exchange ctx c sessionEndpoint body]
  = [exchange ctx c sessionEndpoint body].
Proof.
  unfold requests_to, exchange, request_for. cbn [filter ex_req URL].
  now rewrite bytes_eqb_refl.
Qed.

(** A query on a connection that holds a session sends no request to the
    session endpoint and leaves a session on the connection. *)
Lemma QueryContext_with_session (c0 : PsConn) (ctx : Context) (query : bytes)
  (args : list driver_Value) (st : State) :
  same_target c0 (conn st) ->
  session (conn st) <> None ->
  let st' := snd (QueryContext ctx query args st) in
  same_target c0 (conn st') /\
  session (conn st') <> None /\
  requests_to c0 sessionEndpoint (sent (net st'))
  = requests_to c0 sessionEndpoint (sent (net st)).
Proof.
  intros Hc Hs. cbv zeta. rewrite QueryContext_eq.
  destruct (session (conn st)) as [s|] eqn:Es; [|contradiction].
  destruct (execute_cases ctx query st) as (Ht & Hk & Hlog).
  split; [eapply same_target_trans; eassumption|].
  split; [apply Hk; congruence|].
  destruct Hlog as [-> | [q [-> _]]]; [reflexivity|].
  rewrite requests_to_app, requests_to_execute by assumption.
  apply app_nil_r.
Qed.

Lemma run_queries_with_session (c0 : PsConn)
  (qs : list (Context * bytes * list driver_Value)) :
  forall st,
    same_target c0 (conn st) ->
    session (conn st) <> None ->
    requests_to c0 sessionEndpoint (sent (net (run_queries qs st)))
    = requests_to c0 sessionEndpoint (sent (net st)).
Proof.
  induction qs as [|[[ctx q] args] qs IH]; intros st Hc Hs; [reflexivity|].
  cbn [run_queries].
  destruct (QueryContext_with_session c0 ctx q args st Hc Hs) as (Hc' & Hs' & Hlog).
  rewrite IH by assumption. exact Hlog.
Qed.


Lemma execute_Ok_sent (ctx : Context) (query : bytes) (st : State) (res : PsResults) :
  fst (execute ctx query st) = Ok res ->
  exists q, sent (net (snd (execute ctx query st)))
            = sent (net st)
              ++ [exchange ctx (conn st) executorEndpoint (execute_body q (conn st))].
Proof.
  rewrite execute_eq.
  destruct (json_Marshal query) as [q|e|p]; try discriminate.
  destruct (url_Parse (request_url (conn st) executorEndpoint)); try discriminate.
  cbv zeta.
  destruct (fst (sendRequest ctx _ st)) as [body|e|p]; try discriminate.
  destruct (ParseBytes body) as [v|e|p]; try discriminate.
  intros _. exists q. reflexivity.
Qed.

(** C3.  On a connection without a session, when the session endpoint
    answers 200 with a body that the parser rejects, or that parses to a
    value without a [session] object, the query does not fail with an error:
    [refreshSession] calls [MarshalTo] on a nil object and the query
    panics. *)
Theorem QueryContext_missing_session (ctx : Context) (query : bytes)
  (args : list driver_Value) (st : State) (r : Response) (rest : list Reply) :
  session (conn st) = None ->
  url_Parse (request_url (conn st) sessionEndpoint) = None ->
  replies (net st) = Answer r :: rest ->
  ReadErr r = None ->
  StatusCode r = 200 ->
  match ParseBytes (RespBody r) with
  | Ok v => GetObject (Some v) [B "session"] = None
  | Err _ => True
  | Panic _ => False
  end ->
  fst (QueryContext ctx query args st) = Panic nil_pointer_dereference /\
  session (conn (snd (QueryContext ctx query args st))) = Some [].
Proof.
  intros Hs Hu Hr He Hc Hp. rewrite QueryContext_eq, Hs, refreshSession_eq, Hu.
  cbv zeta. rewrite (sendRequest_answer _ _ _ r rest Hr He), Hc.
  cbn [Z.eqb Pos.eqb fst].
  destruct (ParseBytes (RespBody r)) as [v|e|p]; [| |contradiction].
  - cbn [parsed_value]. rewrite Hp. split; reflexivity.
  - split; reflexivity.
Qed.

(** C4.  When the execute exchange is answered 200 with a body that parses
    to a value holding a [session] object, the session stored on the
    connection after the query is the serialization of that object onto an
    empty slice, whatever session was stored before and whatever the rest
    of the response is: the outcome of the query is that of reading the
    response, an error response as well as a result. *)
Theorem QueryContext_session_rotation (ctx : Context) (query : bytes)
  (args : list driver_Value) (st st1 : State) (q : bytes) (r : Response)
  (rest : list Reply) (v : Value) (o : Object) :
  ensureSession ctx st = (Ok tt, st1) ->
  json_Marshal query = Ok q ->
  url_Parse (request_url (conn st1) executorEndpoint) = None ->
  replies (net st1) = Answer r :: rest ->
  ReadErr r = None ->
  StatusCode r = 200 ->
  ParseBytes (RespBody r) = Ok v ->
  GetObject (Some v) [B "session"] = Some o ->
  session (conn (snd (QueryContext ctx query args st))) = Some (MarshalTo o []) /\
  fst (QueryContext ctx query args st) = readResponse v.
Proof.
  intros Hen Hq Hu Hr He Hc Hp Ho.
  rewrite (QueryContext_after_ensure _ _ _ _ _ Hen).
  rewrite (execute_answered _ _ q _ r rest v Hq Hu Hr He Hc Hp).
  cbv zeta. cbn [fst snd conn]. unfold rotated. rewrite Ho. split; reflexivity.
Qed.

(** C5.  When the execute exchange is answered 200 with a body that parses
    to a value holding an [error] object, the query fails, and the error is
    a function of that object alone: it carries the [message] string when
    the object has one, and is the unknown error when the object has no
    [message]; the [result] member plays no part, present or not. *)
Theorem QueryContext_error_response (ctx : Context) (query : bytes)
  (args : list driver_Value) (st st1 : State) (q : bytes) (r : Response)
  (rest : list Reply) (v : Value) (jsonErr : Object) :
  ensureSession ctx st = (Ok tt, st1) ->
  json_Marshal query = Ok q ->
  url_Parse (request_url (conn st1) executorEndpoint) = None ->
  replies (net st1) = Answer r :: rest ->
  ReadErr r = None ->
  StatusCode r = 200 ->
  ParseBytes (RespBody r) = Ok v ->
  GetObject (Some v) [B "error"] = Some jsonErr ->
  fst (QueryContext ctx query args st)
  = Err (match Object_Get jsonErr (B "message") with
         | Some msg => Errorf (GetStringBytes (Some msg) [])
         | None => unknownError
         end) /\
  (forall msg, Object_Get jsonErr (B "message") = Some (VString msg) ->
               fst (QueryContext ctx query args st) = Err (Errorf msg)) /\
  (Object_Get jsonErr (B "message") = None ->
   fst (QueryContext ctx query args st) = Err unknownError).
Proof.
  intros Hen Hq Hu Hr He Hc Hp Hj.
  rewrite (QueryContext_after_ensure _ _ _ _ _ Hen).
  rewrite (execute_answered _ _ q _ r rest v Hq Hu Hr He Hc Hp).
  cbn [fst]. unfold readResponse. rewrite Hj.
  repeat split.
  - destruct (Object_Get jsonErr (B "message")); reflexivity.
  - intros msg ->. reflexivity.
  - intros ->. reflexivity.
Qed.

(** C6.  On a connection without a session (and with a host that makes a
    URL), a query sends the session-creation request first and sends it
    once: the requests it adds to the log are that request alone, or that
    request followed by the execute request; when the query succeeds, both
    were sent and a session is stored.  From then on, as long as a session
    is stored, any number of further queries on the connection add no
    session-creation request to the log. *)
Theorem session_bootstrap (ctx : Context) (query : bytes)
  (args : list driver_Value) (qs : list (Context * bytes * list driver_Value))
  (st : State) :
  session (conn st) = None ->
  url_Parse (request_url (conn st) sessionEndpoint) = None ->
  let c := conn st in
  let first := exchange ctx c sessionEndpoint (B "{}") in
  let st1 := snd (QueryContext ctx query args st) in
  (exists news,
     sent (net st1) = sent (net st) ++ first :: news /\
     requests_to c sessionEndpoint (first :: news) = [first] /\
     (news = [] \/
      exists ex, news = [ex] /\ URL (ex_req ex) = request_url c executorEndpoint) /\
     (forall res, fst (QueryContext ctx query args st) = Ok res -> news <> [])) /\
  (forall res, fst (QueryContext ctx query args st) = Ok res ->
               session (conn st1) <> None) /\
  (session (conn st1) <> None ->
   requests_to c sessionEndpoint (sent (net (run_queries qs st1)))
   = requests_to c sessionEndpoint (sent (net st1))).
Proof.
  intros Hs Hu. cbv zeta.
  pose proof (refreshSession_cases ctx st) as Hrc. cbv zeta in Hrc.
  rewrite Hu in Hrc. destruct Hrc as (Ht & (Hlog & _) & Hok).
  assert (Hfirst : forall news,
             requests_to (conn st) sessionEndpoint news = [] ->
             requests_to (conn st) sessionEndpoint
               (exchange ctx (conn st) sessionEndpoint (B "{}") :: news)
             = [exchange ctx (conn st) sessionEndpoint (B "{}")]).
  { intros news Hn.
    change (exchange ctx (conn st) sessionEndpoint (B "{}") :: news)
      with ([exchange ctx (conn st) sessionEndpoint (B "{}")] ++ news).
    now rewrite requests_to_app, requests_to_session, Hn. }
  rewrite QueryContext_eq, Hs.
  destruct (refreshSession ctx st) as [[u|e|p] st1] eqn:Er; cbn [fst snd] in *.
  - destruct (execute_cases ctx query st1) as (Ht' & Hk & Hlog').
    pose proof (same_target_trans _ _ _ Ht Ht') as Ht''.
    split; [|split].
    + destruct Hlog' as [Heq | [q [Hsent _]]].
      * exists []. rewrite Heq, Hlog. repeat split.
        -- now apply Hfirst.
        -- now left.
        -- intros res Hres. destruct (execute_Ok_sent _ _ _ _ Hres) as [q Hq].
           rewrite Heq in Hq. apply (f_equal (@length _)) in Hq.
           rewrite length_app in Hq. cbn [length] in Hq. lia.
      * exists [exchange ctx (conn st1) executorEndpoint (execute_body q (conn st1))].
        rewrite Hsent, Hlog, <- app_assoc. repeat split.
        -- apply Hfirst. now apply requests_to_execute.
        -- right. eexists. split; [reflexivity|].
           cbn [exchange request_for ex_req URL]. now apply same_target_url.
        -- discriminate.
    + intros res _. apply Hk. apply Hok. now destruct u.
    + intros Hstored. now apply run_queries_with_session.
  - split; [|split].
    + exists []. rewrite Hlog. repeat split; [now apply Hfirst|now left|discriminate].
    + discriminate.
    + intros Hstored. now apply run_queries_with_session.
  - split; [|split].
    + exists []. rewrite Hlog. repeat split; [now apply Hfirst|now left|discriminate].
    + discriminate.
    + intros Hstored. now apply run_queries_with_session.
Qed.

End Queries.

(** The query theorems at sample inputs, run on the reference libraries. *)

Lemma QueryContext_missing_session_witness :
  fst (QueryContext (lib := Reference.libraries) context_Background select_1 []
         (state_of fresh_conn [reply 200 "{}"]))
  = Panic nil_pointer_dereference /\
  fst (QueryContext (lib := Reference.libraries) context_Background select_1 []
         (state_of fresh_conn [reply 200 "not json"]))
  = Panic nil_pointer_dereference.
Proof.
  split.
  - apply (QueryContext_missing_session (lib := Reference.libraries)
             context_Background select_1 [] (state_of fresh_conn [reply 200 "{}"])
             {| StatusCode := 200; RespBody := json "{}"; ReadErr := None |} []);
      reflexivity.
  - apply (QueryContext_missing_session (lib := Reference.libraries)
             context_Background select_1 []
             (state_of fresh_conn [reply 200 "not json"])
             {| StatusCode := 200; RespBody := json "not json"; ReadErr := None |} []);
      first [reflexivity | exact I].
Defined.

Lemma QueryContext_session_rotation_witness :
  session (conn (snd (QueryContext (lib := Reference.libraries) context_Background
                        select_1 []
                        (state_of active_conn [reply 200 rotating_error_body]))))
  = Some (json "{'id':'2'}") /\
  fst (QueryContext (lib := Reference.libraries) context_Background select_1 []
         (state_of active_conn [reply 200 rotating_error_body]))
  = Err (Errorf (B "boom")).
Proof.
  apply (QueryContext_session_rotation (lib := Reference.libraries)
           context_Background select_1 []
           (state_of active_conn [reply 200 rotating_error_body])
           (state_of active_conn [reply 200 rotating_error_body])
           ([x22] ++ select_1 ++ [x22])
           {| StatusCode := 200; RespBody := json rotating_error_body; ReadErr := None |}
           [] rotating_error_value [(B "id", VString (B "2"))]);
    reflexivity.
Defined.

Lemma QueryContext_error_response_witness :
  GetObject (Some rotating_error_value) [B "result"] <> None /\
  fst (QueryContext (lib := Reference.libraries) context_Background select_1 []
         (state_of active_conn [reply 200 rotating_error_body]))
  = Err (Errorf (B "boom")).
Proof.
  split; [discriminate|].
  exact (proj1 (QueryContext_error_response (lib := Reference.libraries)
           context_Background select_1 []
           (state_of active_conn [reply 200 rotating_error_body])
           (state_of active_conn [reply 200 rotating_error_body])
           ([x22] ++ select_1 ++ [x22])
           {| StatusCode := 200; RespBody := json rotating_error_body; ReadErr := None |}
           [] rotating_error_value [(B "message", VString (B "boom"))]
           eq_refl eq_refl eq_refl eq_refl eq_refl eq_refl eq_refl eq_refl)).
Defined.

Lemma session_bootstrap_witness :
  session (conn bootstrap_state) = None /\
  (session (conn (snd (QueryContext (lib := Reference.libraries) context_Background
                         select_1 [] bootstrap_state))) <> None ->
   requests_to fresh_conn sessionEndpoint
     (sent (net (run_queries (lib := Reference.libraries) later_queries
                   (snd (QueryContext (lib := Reference.libraries) context_Background
                           select_1 [] bootstrap_state)))))
   = requests_to fresh_conn sessionEndpoint
       (sent (net (snd (QueryContext (lib := Reference.libraries) context_Background
                          select_1 [] bootstrap_state))))).
Proof.
  split; [reflexivity|].
  exact (proj2 (proj2 (session_bootstrap (lib := Reference.libraries)
                         context_Background select_1 [] later_queries
                         bootstrap_state eq_refl eq_refl))).
Defined.

Example bootstrap_run :
  map (fun ex => URL (ex_req ex))
    (sent (net (run_queries (lib := Reference.libraries) later_queries
                  (snd (QueryContext (lib := Reference.libraries) context_Background
                          select_1 [] bootstrap_state)))))
  = [request_url fresh_conn sessionEndpoint; request_url fresh_conn executorEndpoint;
     request_url fresh_conn executorEndpoint; request_url fresh_conn executorEndpoint].
Proof. reflexivity. Qed.

(** ** The transport, the unsupported operations, the cursor *)

(** C7, as the code has it.  A response whose body reads without error is
    accepted, and its body returned, exactly when its status code is 200;
    every other status code, the other 2xx codes among them, makes
    [sendRequest] fail with an error whose message holds the status code in
    decimal, a line break and the response body. *)
Theorem sendRequest_status (ctx : Context) (req : Request) (st : State)
  (r : Response) (rest : list Reply) :
  replies (net st) = Answer r :: rest ->
  ReadErr r = None ->
  fst (sendRequest ctx req st) =
    if StatusCode r =? 200
    then Ok (RespBody r)
    else Err (Errorf (B "planetscale API error: " ++ itoa (StatusCode r)
                        ++ [x0a] ++ RespBody r)).
Proof.
  intros Hr He. unfold sendRequest, bind, get_conn, Send, lift, ret, StatusOK.
  rewrite Hr. cbn [fst snd]. rewrite He.
  destruct (StatusCode r =? 200); reflexivity.
Qed.

Lemma sendRequest_status_witness :
  replies (net (state_of fresh_conn [reply 503 "busy"])) = [reply 503 "busy"] /\
  fst (sendRequest context_Background sample_request
         (state_of fresh_conn [reply 503 "busy"]))
  = Err (Errorf (B "planetscale API error: 503" ++ [x0a] ++ B "busy")).
Proof.
  split; [reflexivity|].
  exact (sendRequest_status context_Background sample_request
           (state_of fresh_conn [reply 503 "busy"])
           {| StatusCode := 503; RespBody := json "busy"; ReadErr := None |} []
           eq_refl eq_refl).
Defined.

(** C7 as stated fails: 204 is a 2xx status code, and a response carrying
    it is refused. *)
Lemma sendRequest_204_counterexample :
  fst (sendRequest context_Background sample_request
         (state_of fresh_conn [reply 204 ""]))
  = Err (Errorf (B "planetscale API error: 204" ++ [x0a])).
Proof. reflexivity. Qed.

(** C8. [Prepare], [Begin] and [Rollback] fail with their "not implemented"
    error whatever the connection, the network and the argument are, and
    leave both as they were: nothing is sent. *)
Theorem unsupported_operations (st : State) (query : bytes) :
  Prepare query st = (Err (Errorf (B "Prepare method not implemented")), st) /\
  Begin st = (Err (Errorf (B "Begin method not implemented")), st) /\
  Rollback st = (Err (Errorf (B "Rollback method not implemented")), st).
Proof. repeat split. Qed.

(** ** The cursor at the end *)

Lemma wrap_int_small (z : Z) : min_int <= z <= max_int -> wrap_int z = z.
Proof.
  unfold wrap_int, min_int, max_int, uint64_modulus. intros H.
  rewrite Z.mod_small; lia.
Qed.

Lemma Next_at_end (r : PsResults) (dest : list driver_Value) :
  len (Rows r) < max_int -> pos r = len (Rows r) ->
  Next r dest = (Err io_EOF, r, dest).
Proof.
  intros Hlen Hpos. unfold Next. pose proof (len_nonneg (Rows r)) as Hnn.
  rewrite wrap_int_small by (unfold min_int, max_int in *; lia).
  replace (len (Rows r) <? pos r + 1) with true by (symmetry; apply Z.ltb_lt; lia).
  reflexivity.
Qed.

(** C9. Once the cursor stands behind the last row, [Next] returns
    [io.EOF] and leaves the cursor and the destination as they were; so
    does every further call, however many follow. *)
Theorem Next_exhausted (r : PsResults) (dest : list driver_Value) (n : nat) :
  len (Rows r) < max_int ->
  pos r = len (Rows r) ->
  Next r dest = (Err io_EOF, r, dest) /\
  Next_times n r dest = (repeat (Err io_EOF) n, r, dest).
Proof.
  intros Hlen Hpos. split; [now apply Next_at_end|].
  induction n as [|n IH]; [reflexivity|].
  cbn [Next_times repeat]. rewrite Next_at_end by assumption. now rewrite IH.
Qed.

Lemma Next_exhausted_witness :
  len (Rows sample_results) < max_int /\
  pos sample_results = len (Rows sample_results) /\
  Next sample_results [DNil; DNil] = (Err io_EOF, sample_results, [DNil; DNil]) /\
  Next_times 3 sample_results [DNil; DNil]
  = (repeat (Err io_EOF) 3, sample_results, [DNil; DNil]).
Proof.
  split; [reflexivity|]. split; [reflexivity|].
  apply (Next_exhausted sample_results [DNil; DNil] 3); reflexivity.
Defined.

(** C10. [QueryContext] and [Query] do not look at [args]: two calls that
    differ in nothing else give the same outcome and leave the same
    connection and the same network, the log of the requests sent, with
    their bodies, included. *)
Theorem args_ignored {lib : Libraries} (ctx : Context) (query : bytes)
  (args1 args2 : list driver_Value) (st : State) :
  QueryContext ctx query args1 st = QueryContext ctx query args2 st /\
  Query query args1 st = Query query args2 st.
Proof. split; reflexivity. Qed.

(** ** The driver on sample inputs *)

(** The authorization header of the credentials [u], [p]. *)
Example basic_auth_header :
  nth_error (Header (request_for fresh_conn executorEndpoint [])) 3
  = Some (B "Authorization", B "Basic dTpw").
Proof. reflexivity. Qed.

(** The body of the execute request holds the marshalled query text and the
    stored session, nothing of the arguments. *)
Example execute_request_body :
  map (fun ex => Body (ex_req ex))
    (sent (net (snd (QueryContext (lib := Reference.libraries) context_Background
                       select_1 [DInt 42; DString (B "x")]
                       (state_of active_conn [reply 200 empty_result_body])))))
  = [json "{'query':'select 1','session':{'id':'1'}}"].
Proof. reflexivity. Qed.

(** A cursor over one row: the first [Next] fills the destination, the
    second is at the end. *)
Example Next_then_end :
  Next_times 2 {| Fields := []; Rows := [{| Values := [B "a"; B "bc"] |}]; pos := 0 |}
    [DNil; DNil]
  = ([Ok tt; Err io_EOF], sample_results, [DBytes (B "a"); DBytes (B "bc")]).
Proof. reflexivity. Qed.

(** A blob shorter than its buffer: the lengths may reach into the zero
    bytes behind the decoded data without an error. *)
Example readRow_reads_past_blob :
  readRow (row_object "YQ==" ["3"]%string) = Ok {| Values := [[x61; x00; x00]] |}.
Proof. reflexivity. Qed.

(** * Further properties *)

(** ** Exchanges that fail *)

Section Failures.

Context {lib : Libraries}.

Lemma after_send_exchanged (ctx : Context) (st : State) (endpoint body : bytes) :
  after_send ctx (request_for (conn st) endpoint body) st
  = exchanged st (exchange ctx (conn st) endpoint body) (conn st).
Proof. reflexivity. Qed.

(** X1.  On a connection that holds a session, when [sendRequest] fails on
    the execute request (the send fails, the body cannot be read, or the
    status is not 200), the query returns that very error, the connection is
    left as it was, and the execute request is the only one sent. *)
Theorem QueryContext_exchange_error (ctx : Context) (query : bytes)
  (args : list driver_Value) (st : State) (s q : bytes) (e : error) :
  session (conn st) = Some s ->
  json_Marshal query = Ok q ->
  url_Parse (request_url (conn st) executorEndpoint) = None ->
  fst (sendRequest ctx
         (request_for (conn st) executorEndpoint (execute_body q (conn st))) st)
  = Err e ->
  QueryContext ctx query args st
  = (Err e,
     exchanged st
       (exchange ctx (conn st) executorEndpoint (execute_body q (conn st)))
       (conn st)).
Proof.
  intros Hs Hq Hu He.
  rewrite QueryContext_eq, Hs, execute_eq, Hq, Hu. cbv zeta.
  rewrite He. now rewrite after_send_exchanged.
Qed.

(** X2.  On a connection that holds a session, when the execute exchange is
    answered 200 with a body the parser rejects, the query returns the
    parser's error and the connection keeps the session it had. *)
Theorem QueryContext_parse_error (ctx : Context) (query : bytes)
  (args : list driver_Value) (st : State) (s q : bytes) (r : Response)
  (rest : list Reply) (e : error) :
  session (conn st) = Some s ->
  json_Marshal query = Ok q ->
  url_Parse (request_url (conn st) executorEndpoint) = None ->
  replies (net st) = Answer r :: rest ->
  ReadErr r = None ->
  StatusCode r = 200 ->
  ParseBytes (RespBody r) = Err e ->
  fst (QueryContext ctx query args st) = Err e /\
  conn (snd (QueryContext ctx query args st)) = conn st.
Proof.
  intros Hs Hq Hu Hr He Hc Hp.
  rewrite QueryContext_eq, Hs, execute_eq, Hq, Hu. cbv zeta.
  rewrite (sendRequest_answer _ _ _ r rest Hr He), Hc.
  cbn [Z.eqb Pos.eqb fst]. rewrite Hp. split; reflexivity.
Qed.

(** X3.  On a connection without a session, when [sendRequest] fails on the
    session-creation request, the query returns that error without sending
    an execute request, and the session stays nil: the next query on the
    connection starts with a session-creation request again. *)
Theorem QueryContext_bootstrap_error (ctx ctx2 : Context) (query query2 : bytes)
  (args args2 : list driver_Value) (st : State) (e : error) :
  session (conn st) = None ->
  url_Parse (request_url (conn st) sessionEndpoint) = None ->
  fst (sendRequest ctx (request_for (conn st) sessionEndpoint (B "{}")) st) = Err e ->
  let first := exchange ctx (conn st) sessionEndpoint (B "{}") in
  let st1 := snd (QueryContext ctx query args st) in
  QueryContext ctx query args st = (Err e, exchanged st first (conn st)) /\
  exists news,
    sent (net (snd (QueryContext ctx2 query2 args2 st1)))
    = sent (net st) ++ first :: exchange ctx2 (conn st) sessionEndpoint (B "{}") :: news.
Proof.
  intros Hs Hu He. cbv zeta.
  assert (Hq : QueryContext ctx query args st
               = (Err e, exchanged st (exchange ctx (conn st) sessionEndpoint (B "{}"))
                           (conn st))).
  { rewrite QueryContext_eq, Hs, refreshSession_eq, Hu. cbv zeta.
    rewrite He. now rewrite after_send_exchanged. }
  split; [exact Hq|]. rewrite Hq. cbn [snd].
  set (st1 := exchanged st (exchange ctx (conn st) sessionEndpoint (B "{}")) (conn st)).
  pose proof (refreshSession_cases ctx2 st1) as Hrc. cbv zeta in Hrc.
  change (conn st1) with (conn st) in Hrc. rewrite Hu in Hrc.
  destruct Hrc as (Ht & (Hlog & _) & _).
  rewrite QueryContext_eq. change (session (conn st1)) with (session (conn st)).
  rewrite Hs.
  destruct (refreshSession ctx2 st1) as [[u|e2|p2] st2] eqn:Er; cbn [fst snd] in *.
  - destruct (execute_cases ctx2 query2 st2) as (_ & _ & [Heq | [q [Hsent _]]]).
    + exists []. rewrite Heq, Hlog. unfold st1, exchanged. cbn [net sent].
      now rewrite <- app_assoc.
    + eexists. rewrite Hsent, Hlog. unfold st1, exchanged. cbn [net sent].
      rewrite <- !app_assoc. reflexivity.
  - exists []. rewrite Hlog. unfold st1, exchanged. cbn [net sent].
    now rewrite <- app_assoc.
  - exists []. rewrite Hlog. unfold st1, exchanged. cbn [net sent].
    now rewrite <- app_assoc.
Qed.

End Failures.

(** ** The session from one exchange to the next *)

Section Sessions.

Context {lib : Libraries}.

Lemma execute_sent (ctx : Context) (query q : bytes) (st : State) :
  json_Marshal query = Ok q ->
  url_Parse (request_url (conn st) executorEndpoint) = None ->
  sent (net (snd (execute ctx query st)))
  = sent (net st)
    ++ [exchange ctx (conn st) executorEndpoint (execute_body q (conn st))].
Proof.
  intros Hq Hu. rewrite execute_eq, Hq, Hu. cbv zeta.
  destruct (fst (sendRequest ctx _ st)) as [body|e|p]; try reflexivity.
  destruct (ParseBytes body) as [v|e|p]; reflexivity.
Qed.

Lemma ensureSession_stored (ctx : Context) (st : State) (r : Response)
  (rest : list Reply) (v : Value) (o : Object) :
  session (conn st) = None ->
  url_Parse (request_url (conn st) sessionEndpoint) = None ->
  replies (net st) = Answer r :: rest ->
  ReadErr r = None ->
  StatusCode r = 200 ->
  ParseBytes (RespBody r) = Ok v ->
  GetObject (Some v) [B "session"] = Some o ->
  ensureSession ctx st
  = (Ok tt,
     exchanged st (exchange ctx (conn st) sessionEndpoint (B "{}"))
       (with_session (conn st) (Some (MarshalTo o [])))).
Proof.
  intros Hs Hu Hr He Hc Hp Ho.
  unfold ensureSession, bind, get_conn. rewrite Hs, refreshSession_eq, Hu.
  cbv zeta. rewrite (sendRequest_answer _ _ _ r rest Hr He), Hc.
  cbn [Z.eqb Pos.eqb fst]. rewrite Hp. cbn [parsed_value]. rewrite Ho.
  reflexivity.
Qed.

(** X4.  On a connection without a session, when the session endpoint
    answers 200 with a body that parses to a value holding a [session]
    object, the query stores the serialization of that object and goes on
    to the execute exchange: the requests it sends are the session-creation
    request and then the execute request, whose body holds the marshalled
    query text followed by the serialized session, byte for byte. *)
Theorem QueryContext_bootstrap_replay (ctx : Context) (query : bytes)
  (args : list driver_Value) (st : State) (q : bytes) (r : Response)
  (rest : list Reply) (v : Value) (o : Object) :
  session (conn st) = None ->
  url_Parse (request_url (conn st) sessionEndpoint) = None ->
  url_Parse (request_url (conn st) executorEndpoint) = None ->
  json_Marshal query = Ok q ->
  replies (net st) = Answer r :: rest ->
  ReadErr r = None ->
  StatusCode r = 200 ->
  ParseBytes (RespBody r) = Ok v ->
  GetObject (Some v) [B "session"] = Some o ->
  exists ex,
    sent (net (snd (QueryContext ctx query args st)))
    = sent (net st) ++ [exchange ctx (conn st) sessionEndpoint (B "{}"); ex] /\
    URL (ex_req ex) = request_url (conn st) executorEndpoint /\
    Body (ex_req ex)
    = B "{" ++ quoted "query" ++ B ":" ++ q ++ B "," ++ quoted "session" ++ B ":"
        ++ MarshalTo o [] ++ B "}".
Proof.
  intros Hs Hu Hu2 Hq Hr He Hc Hp Ho.
  rewrite (QueryContext_after_ensure _ _ _ _ _
             (ensureSession_stored ctx st r rest v o Hs Hu Hr He Hc Hp Ho)).
  rewrite (execute_sent _ _ q) by assumption.
  eexists. split; [|split].
  - unfold exchanged. cbn [net sent conn]. rewrite <- app_assoc. reflexivity.
  - reflexivity.
  - reflexivity.
Qed.

(** X5.  The session a response leaves is the session the next request
    carries: after a query whose execute response held a [session] object,
    the next query on the connection sends exactly one request, the execute
    request, and its body ends with the serialization of that object,
    unchanged. *)
Theorem session_replayed (ctx ctx2 : Context) (query query2 : bytes)
  (args args2 : list driver_Value) (st st0 : State) (q q2 : bytes)
  (r : Response) (rest : list Reply) (v : Value) (o : Object) :
  ensureSession ctx st = (Ok tt, st0) ->
  json_Marshal query = Ok q ->
  json_Marshal query2 = Ok q2 ->
  url_Parse (request_url (conn st0) executorEndpoint) = None ->
  replies (net st0) = Answer r :: rest ->
  ReadErr r = None ->
  StatusCode r = 200 ->
  ParseBytes (RespBody r) = Ok v ->
  GetObject (Some v) [B "session"] = Some o ->
  let st1 := snd (QueryContext ctx query args st) in
  exists ex,
    sent (net (snd (QueryContext ctx2 query2 args2 st1))) = sent (net st1) ++ [ex] /\
    URL (ex_req ex) = request_url (conn st0) executorEndpoint /\
    Body (ex_req ex)
    = B "{" ++ quoted "query" ++ B ":" ++ q2 ++ B "," ++ quoted "session" ++ B ":"
        ++ MarshalTo o [] ++ B "}".
Proof.
  intros Hen Hq Hq2 Hu Hr He Hc Hp Ho. cbv zeta.
  rewrite (QueryContext_after_ensure _ _ _ _ _ Hen).
  rewrite (execute_answered _ _ q _ r rest v Hq Hu Hr He Hc Hp).
  cbv zeta. cbn [snd]. unfold rotated. rewrite Ho.
  match goal with
  | |- context [QueryContext ctx2 query2 args2 ?s] => set (st1 := s)
  end.
  rewrite QueryContext_eq. cbn [st1 conn session with_session].
  rewrite (execute_sent _ _ q2) by assumption.
  eexists. split; [reflexivity|]. split; reflexivity.
Qed.

(** ** What no sequence of queries changes *)

Lemma QueryContext_keeps (ctx : Context) (query : bytes)
  (args : list driver_Value) (st : State) :
  let st' := snd (QueryContext ctx query args st) in
  same_target (conn st) (conn st') /\
  (session (conn st) <> None -> session (conn st') <> None).
Proof.
  cbv zeta. rewrite QueryContext_eq.
  destruct (session (conn st)) as [s|] eqn:Es.
  - destruct (execute_cases ctx query st) as (Ht & Hk & _).
    split; [exact Ht|]. intros _. apply Hk. congruence.
  - split; [|intros H; now contradiction H].
    pose proof (refreshSession_cases ctx st) as (Ht & _ & _). cbv zeta in Ht.
    destruct (refreshSession ctx st) as [[u|e|p] st1]; cbn [fst snd] in *;
      try exact Ht.
    destruct (execute_cases ctx query st1) as (Ht' & _ & _).
    eapply same_target_trans; eassumption.
Qed.

(** X6.  Whatever the queries and whatever the backend answers, a sequence
    of queries never changes the user name, the password, the host or the
    backend of the connection, and never takes a stored session away. *)
Theorem run_queries_keeps (qs : list (Context * bytes * list driver_Value)) :
  forall st,
    same_target (conn st) (conn (run_queries qs st)) /\
    (session (conn st) <> None -> session (conn (run_queries qs st)) <> None).
Proof.
  induction qs as [|[[ctx q] args] qs IH]; intros st.
  - split; [apply same_target_refl | tauto].
  - cbn [run_queries].
    destruct (QueryContext_keeps ctx q args st) as (Ht & Hk).
    destruct (IH (snd (QueryContext ctx q args st))) as (Ht' & Hk').
    split; [eapply same_target_trans; eassumption | tauto].
Qed.

Lemma exchange_driver (c c' : PsConn) (ctx : Context) (endpoint body : bytes) :
  same_target c c' ->
  endpoint = sessionEndpoint \/ endpoint = executorEndpoint ->
  driver_exchange c (exchange ctx c' endpoint body).
Proof.
  intros Ht Hep. pose proof Ht as (Hu & Hp & Hh & Hb).
  unfold driver_exchange, exchange, request_for, driver_headers.
  cbn [ex_backend ex_req Method URL Header].
  rewrite Hu, Hp, Hh, Hb. repeat split.
  destruct Hep as [-> | ->]; [left | right]; unfold request_url; now rewrite Hh.
Qed.

Lemma driver_exchange_target (c c' : PsConn) (ex : Exchange) :
  same_target c c' -> driver_exchange c' ex -> driver_exchange c ex.
Proof.
  intros (Hu & Hp & Hh & Hb). unfold driver_exchange, driver_headers, request_url.
  now rewrite Hu, Hp, Hh, Hb.
Qed.

Lemma QueryContext_requests (ctx : Context) (query : bytes)
  (args : list driver_Value) (st : State) :
  exists news,
    sent (net (snd (QueryContext ctx query args st))) = sent (net st) ++ news /\
    Forall (driver_exchange (conn st)) news /\
    (length news <= 2)%nat /\
    (session (conn st) <> None -> length news <= 1)%nat.
Proof.
  rewrite QueryContext_eq.
  assert (Hex : forall st0, same_target (conn st) (conn st0) ->
            exists news,
              sent (net (snd (execute ctx query st0))) = sent (net st0) ++ news /\
              Forall (driver_exchange (conn st)) news /\ (length news <= 1)%nat).
  { intros st0 Ht0.
    destruct (execute_cases ctx query st0) as (_ & _ & [Heq | [q [Hsent _]]]).
    - exists []. rewrite Heq, app_nil_r. repeat split; [constructor | cbn; lia].
    - eexists. split; [exact Hsent|]. split; [|cbn; lia].
      constructor; [|constructor]. apply exchange_driver; [exact Ht0 | now right]. }
  destruct (session (conn st)) as [s|] eqn:Es.
  - destruct (Hex st (same_target_refl _)) as (news & Hs & Hf & Hl).
    exists news. repeat split; try assumption; lia.
  - pose proof (refreshSession_cases ctx st) as (Ht & Hlog & _). cbv zeta in Ht, Hlog.
    assert (Hrs : exists n1,
               sent (net (snd (refreshSession ctx st))) = sent (net st) ++ n1 /\
               Forall (driver_exchange (conn st)) n1 /\ (length n1 <= 1)%nat).
    { destruct (url_Parse (request_url (conn st) sessionEndpoint)).
      - exists []. rewrite Hlog, app_nil_r. repeat split; [constructor | cbn; lia].
      - destruct Hlog as [Hlog _]. eexists. split; [exact Hlog|].
        split; [|cbn; lia]. constructor; [|constructor].
        apply exchange_driver; [apply same_target_refl | now left]. }
    destruct Hrs as (n1 & Hs1 & Hf1 & Hl1).
    destruct (refreshSession ctx st) as [[u|e|p] st1]; cbn [fst snd] in *.
    + destruct (Hex st1 Ht) as (n2 & Hs2 & Hf2 & Hl2).
      exists (n1 ++ n2). rewrite Hs2, Hs1, <- app_assoc.
      repeat split; [now apply Forall_app | rewrite length_app; lia | tauto].
    + exists n1. repeat split; try assumption; [lia | tauto].
    + exists n1. repeat split; try assumption; [lia | tauto].
Qed.

(** X7.  Every request a sequence of queries sends is the driver's own: a
    POST to the session or the execute endpoint of the connection's host,
    sent to the connection's backend, with the four headers of the
    connection.  There are at most two of them for each query, and at most
    one for each query when the connection holds a session at the start. *)
Theorem run_queries_requests (qs : list (Context * bytes * list driver_Value)) :
  forall st,
    exists news,
      sent (net (run_queries qs st)) = sent (net st) ++ news /\
      Forall (driver_exchange (conn st)) news /\
      (length news <= 2 * length qs)%nat /\
      (session (conn st) <> None -> length news <= length qs)%nat.
Proof.
  induction qs as [|[[ctx q] args] qs IH]; intros st.
  - exists []. cbn [run_queries length]. rewrite app_nil_r.
    repeat split; [constructor | lia | lia].
  - cbn [run_queries].
    destruct (QueryContext_requests ctx q args st) as (n1 & Hs1 & Hf1 & Hl1 & Hl1').
    destruct (QueryContext_keeps ctx q args st) as (Ht & Hk).
    destruct (IH (snd (QueryContext ctx q args st))) as (n2 & Hs2 & Hf2 & Hl2 & Hl2').
    exists (n1 ++ n2). rewrite Hs2, Hs1, <- app_assoc.
    split; [reflexivity|]. split; [|split].
    + apply Forall_app. split; [exact Hf1|].
      eapply Forall_impl; [|exact Hf2]. intros ex. now apply driver_exchange_target.
    + rewrite length_app. cbn [length]. lia.
    + intros Hs. rewrite length_app. cbn [length].
      specialize (Hl1' Hs). specialize (Hl2' (Hk Hs)). lia.
Qed.

(** X8.  [Close] returns nil and clears nothing on the caller's connection:
    a connection that held a session still holds it, and the query that
    follows sends no session-creation request. *)
Theorem Close_keeps_session (ctx : Context) (query : bytes)
  (args : list driver_Value) (st : State) :
  session (conn st) <> None ->
  let st1 := snd (Close st) in
  fst (Close st) = Ok tt /\
  session (conn st1) = session (conn st) /\
  requests_to (conn st) sessionEndpoint
    (sent (net (snd (QueryContext ctx query args st1))))
  = requests_to (conn st) sessionEndpoint (sent (net st)).
Proof.
  intros Hs. cbv zeta. unfold Close, ret. cbn [fst snd].
  split; [reflexivity|]. split; [reflexivity|].
  now apply (QueryContext_with_session (conn st) ctx query args st
               (same_target_refl _) Hs).
Qed.

End Sessions.

(** ** Reading a response *)

(** X9.  A response without an [error] object must hold a [result] object,
    the result a [fields] member, and then a [rows] member: the first one
    missing decides the error, "no result" before "missing fields" before
    "missing rows", and a result without [fields] is refused whatever its
    [rows] are. *)
Theorem readResponse_missing (v : Value) :
  GetObject (Some v) [B "error"] = None ->
  (GetObject (Some v) [B "result"] = None ->
   readResponse v = Err (Errorf (B "no result"))) /\
  (forall result,
      GetObject (Some v) [B "result"] = Some result ->
      Object_Get result (B "fields") = None ->
      readResponse v = Err (Errorf (B "missing fields"))) /\
  (forall result f,
      GetObject (Some v) [B "result"] = Some result ->
      Object_Get result (B "fields") = Some f ->
      Object_Get result (B "rows") = None ->
      readResponse v = Err (Errorf (B "missing rows"))).
Proof.
  intros He. unfold readResponse. rewrite He. repeat split.
  - intros ->. reflexivity.
  - intros result -> ->. reflexivity.
  - intros result f -> -> ->. reflexivity.
Qed.

Lemma readResponse_missing_witness :
  readResponse (VObject [(B "result", VNull)]) = Err (Errorf (B "no result")) /\
  readResponse (VObject [(B "result", VObject [(B "rows", VArray [])])])
  = Err (Errorf (B "missing fields")) /\
  readResponse (VObject [(B "result", VObject [(B "fields", VArray [])])])
  = Err (Errorf (B "missing rows")).
Proof.
  split; [|split].
  - apply (proj1 (readResponse_missing (VObject [(B "result", VNull)]) eq_refl)).
    reflexivity.
  - apply (proj1 (proj2 (readResponse_missing
                           (VObject [(B "result", VObject [(B "rows", VArray [])])])
                           eq_refl))
             [(B "rows", VArray [])]); reflexivity.
  - apply (proj2 (proj2 (readResponse_missing
                           (VObject [(B "result", VObject [(B "fields", VArray [])])])
                           eq_refl))
             [(B "fields", VArray [])] (VArray [])); reflexivity.
Defined.

(** X10.  A response without an [error] object whose result holds [fields]
    and [rows] comes to a result set exactly when the rows decode; the set
    then has one field for each element of the [fields] array, the column
    names are the [name] strings of these elements in order, the rows are the
    decoded rows, and the cursor stands before the first row.  The fields
    never fail: a [fields] member that is no array gives no columns. *)
Theorem readResponse_result (v : Value) (result : Object) (f r : Value)
  (rows : list PsRow) :
  GetObject (Some v) [B "error"] = None ->
  GetObject (Some v) [B "result"] = Some result ->
  Object_Get result (B "fields") = Some f ->
  Object_Get result (B "rows") = Some r ->
  readRows (Some r) = Ok rows ->
  exists res,
    readResponse v = Ok res /\
    Rows res = rows /\
    pos res = 0 /\
    length (Fields res) = length (GetArray (Some f) []) /\
    Columns res
    = map (fun x => GetStringBytes (Some x) [B "name"]) (GetArray (Some f) []).
Proof.
  intros He Hr Hf Hrows Hdec. unfold readResponse. rewrite He, Hr, Hf, Hrows.
  unfold readFields. rewrite Hdec. eexists. split; [reflexivity|].
  cbn [Rows pos Fields]. repeat split.
  - now rewrite length_map.
  - unfold Columns. cbn [Fields]. rewrite map_map. reflexivity.
Qed.

Lemma readResponse_result_witness :
  exists res,
    readResponse two_columns_value = Ok res /\
    Rows res = [{| Values := [B "a"; B "bc"] |}] /\
    pos res = 0 /\
    length (Fields res) = 2%nat /\
    Columns res = [B "id"; []].
Proof.
  exact (readResponse_result two_columns_value
           [(B "fields",
             VArray [VObject [(B "name", VString (B "id"));
                              (B "charset", VNumber (B "63"))];
                     VObject [(B "type", VString (B "VARCHAR"))]]);
            (B "rows", VArray [row_object "YWJj" ["1"; "2"]%string])]
           (VArray [VObject [(B "name", VString (B "id"));
                             (B "charset", VNumber (B "63"))];
                    VObject [(B "type", VString (B "VARCHAR"))]])
           (VArray [row_object "YWJj" ["1"; "2"]%string])
           [{| Values := [B "a"; B "bc"] |}]
           eq_refl eq_refl eq_refl eq_refl eq_refl).
Defined.

(** ** Rows that do not decode *)

Lemma readRows_loop_app (good : list Value) :
  forall rows rest,
    Forall2 (fun r row => readRow r = Ok row) good rows ->
    readRows_loop (good ++ rest)
    = match readRows_loop rest with
      | Ok rows' => Ok (rows ++ rows')
      | other => other
      end.
Proof.
  induction good as [|g good IH]; intros rows rest H; inversion H; subst.
  - cbn [app]. destruct (readRows_loop rest); reflexivity.
  - cbn [app readRows_loop]. match goal with Hg : readRow g = _ |- _ => rewrite Hg end.
    erewrite IH by eassumption.
    destruct (readRows_loop rest); reflexivity.
Qed.

(** X11.  The first row that does not decode decides the outcome of
    [readRows]: its error, or its panic, is the outcome whatever the rows
    after it are, and the rows decoded before it are dropped. *)
Theorem readRows_first_failure (v bad : Value) (good rest : list Value)
  (rows : list PsRow) :
  GetArray (Some v) [] = good ++ bad :: rest ->
  Forall2 (fun r row => readRow r = Ok row) good rows ->
  (forall e, readRow bad = Err e -> readRows (Some v) = Err e) /\
  (forall p, readRow bad = Panic p -> readRows (Some v) = Panic p).
Proof.
  intros Hv Hgood. unfold readRows. rewrite Hv.
  rewrite (readRows_loop_app good rows _ Hgood). cbn [readRows_loop].
  split; intros x Hx; rewrite Hx; reflexivity.
Qed.

Lemma readRows_first_failure_witness :
  readRows (Some (VArray [row_object "YWJj" ["3"]%string;
                          row_object "YWJ" ["3"]%string;
                          row_object "YWJj" ["9"]%string]))
  = Err CorruptInputError.
Proof.
  assert (Hgood : Forall2 (fun r row => readRow r = Ok row)
                    [row_object "YWJj" ["3"]%string] [{| Values := [B "abc"] |}])
    by (repeat constructor).
  apply (proj1 (readRows_first_failure
                  (VArray [row_object "YWJj" ["3"]%string;
                           row_object "YWJ" ["3"]%string;
                           row_object "YWJj" ["9"]%string])
                  (row_object "YWJ" ["3"]%string)
                  [row_object "YWJj" ["3"]%string]
                  [row_object "YWJj" ["9"]%string]
                  [{| Values := [B "abc"] |}]
                  eq_refl Hgood)).
  reflexivity.
Defined.

(** ** Lengths against the buffer *)

Lemma readValues_overrun (dst : bytes) (lengths : list Value) :
  forall ls pos,
    parse_lengths lengths = Ok ls ->
    0 <= pos <= len dst -> len dst < uint64_modulus ->
    len dst < pos + sum_Z ls ->
    readValues dst lengths pos = Panic slice_bounds_out_of_range.
Proof.
  induction lengths as [|l rest IH]; intros ls pos Hp Hpos Hdst Hover;
    cbn [parse_lengths] in Hp; cbn [readValues].
  - injection Hp as <-. cbn [sum_Z fold_right] in Hover. lia.
  - destruct (strconv.ParseUint (GetStringBytes (Some l) [])) as [u| |] eqn:Eu;
      try discriminate.
    destruct (parse_lengths rest) as [us| |] eqn:Eus; try discriminate.
    injection Hp as <-.
    pose proof (ParseUint_range _ _ Eu) as Hu.
    cbn [sum_Z fold_right] in Hover. fold (sum_Z us) in Hover.
    cbv zeta.
    destruct (Z_lt_ge_dec (pos + u) uint64_modulus) as [Hsmall | Hwrap].
    + rewrite wrap_uint64_small by lia.
      destruct (Z_le_gt_dec (pos + u) (len dst)) as [Hin | Hout].
      * replace ((pos <=? pos + u) && (pos + u <=? len dst)) with true
          by (symmetry; apply andb_true_iff; split; apply Z.leb_le; lia).
        rewrite (IH us (pos + u)) by (reflexivity || lia). reflexivity.
      * replace (pos + u <=? len dst) with false by (symmetry; apply Z.leb_gt; lia).
        now rewrite andb_false_r.
    + assert (Hw : wrap_uint64 (pos + u) = pos + u - uint64_modulus).
      { unfold wrap_uint64.
        replace (pos + u) with (pos + u - uint64_modulus + 1 * uint64_modulus) at 1 by lia.
        rewrite Z.mod_add by (unfold uint64_modulus; lia).
        apply Z.mod_small. lia. }
      rewrite Hw.
      replace (pos <=? pos + u - uint64_modulus) with false
        by (symmetry; apply Z.leb_gt; lia).
      reflexivity.
Qed.

Lemma cut_lengths (ls : list Z) :
  forall buf,
    Forall (fun u => 0 <= u) ls -> sum_Z ls <= len buf ->
    map (fun val : bytes => len val) (cut ls buf) = ls.
Proof.
  induction ls as [|u us IH]; intros buf Hpos Hsum; [reflexivity|].
  inversion Hpos as [|? ? Hu Hus]; subst. cbn [sum_Z fold_right] in Hsum.
  fold (sum_Z us) in Hsum. pose proof (sum_Z_nonneg us Hus) as Hs.
  cbn [cut map]. f_equal.
  - unfold len in *. rewrite firstn_length_le by lia. lia.
  - apply IH; [exact Hus|]. unfold len in *. rewrite length_skipn. lia.
Qed.

(** X12.  Once the blob of a row decodes and its lengths parse, the row
    decoder returns no error, whatever the lengths are.  It compares them
    with the capacity of its buffer, three bytes for every four characters
    of the [values] string: when they sum to no more than the capacity the
    row decodes, each value as long as its length says; when they sum to
    more, the decoder panics on a slice out of range. *)
Theorem readRow_capacity (v : Value) (blob : bytes) (ls : list Z) :
  go_len (row_values v) = true ->
  row_blob v = Ok blob ->
  parse_lengths (row_lengths v) = Ok ls ->
  (sum_Z ls <= base64.DecodedLen (len (row_values v)) ->
   exists row, readRow v = Ok row /\
               map (fun val : bytes => len val) (Values row) = ls) /\
  (base64.DecodedLen (len (row_values v)) < sum_Z ls ->
   readRow v = Panic slice_bounds_out_of_range).
Proof.
  unfold go_len, row_blob, row_values, row_lengths, readRow.
  intros Hgo Hb Hp. apply Z.leb_le in Hgo. rewrite Hb.
  pose proof (Decode_len _ _ Hb) as Hcap.
  pose proof (DecodedLen_le _ (len_nonneg (GetStringBytes (Some v) [B "values"]))) as Hle.
  pose proof (len_nonneg blob) as Hnn.
  replace (len blob <=? base64.DecodedLen (len (GetStringBytes (Some v) [B "values"])))
    with true by (symmetry; apply Z.leb_le; lia).
  set (capacity := base64.DecodedLen (len (GetStringBytes (Some v) [B "values"]))) in *.
  assert (Hdst : len (blob ++ make_bytes (capacity - len blob)) = capacity)
    by (rewrite len_app, len_make_bytes by lia; lia).
  split; intros Hsum.
  - rewrite (readValues_cut _ _ ls 0 Hp);
      [|lia|lia|unfold max_int, uint64_modulus in *; lia].
    eexists. split; [reflexivity|]. cbn [Values Z.to_nat skipn].
    apply cut_lengths; [|lia]. eapply parse_lengths_nonneg; eassumption.
  - rewrite (readValues_overrun _ _ ls 0 Hp);
      [reflexivity|lia|unfold max_int, uint64_modulus in *; lia|lia].
Qed.

Lemma readRow_capacity_witness :
  (exists row, readRow (row_object "YQ==" ["3"]%string) = Ok row /\
               map (fun val : bytes => len val) (Values row) = [3]) /\
  readRow (row_object "YWJj" ["2"; "2"]%string) = Panic slice_bounds_out_of_range.
Proof.
  split.
  - apply (proj1 (readRow_capacity (row_object "YQ==" ["3"]%string) (B "a") [3]
                    eq_refl eq_refl eq_refl)).
    vm_compute. discriminate.
  - apply (proj2 (readRow_capacity (row_object "YWJj" ["2"; "2"]%string) (B "abc")
                    [2; 2] eq_refl eq_refl eq_refl)).
    reflexivity.
Defined.

(** ** Lengths that are no decimal strings *)

Lemma ParseUint_nil : strconv.ParseUint [] = Err (NumError (B "ParseUint") [] ErrSyntax).
Proof. reflexivity. Qed.

Lemma readValues_app (dst : bytes) (front : list Value) :
  forall ls pos back,
    parse_lengths front = Ok ls ->
    0 <= pos -> pos + sum_Z ls <= len dst -> len dst < uint64_modulus ->
    readValues dst (front ++ back) pos
    = match readValues dst back (pos + sum_Z ls) with
      | Ok vals => Ok (cut ls (skipn (Z.to_nat pos) dst) ++ vals)
      | other => other
      end.
Proof.
  induction front as [|l rest IH]; intros ls pos back Hp Hpos Hsum Hdst;
    cbn [parse_lengths] in Hp.
  - injection Hp as <-. cbn [app sum_Z fold_right cut]. rewrite Z.add_0_r.
    destruct (readValues dst back pos); reflexivity.
  - destruct (strconv.ParseUint (GetStringBytes (Some l) [])) as [u| |] eqn:Eu;
      try discriminate.
    destruct (parse_lengths rest) as [us| |] eqn:Eus; try discriminate.
    injection Hp as <-.
    pose proof (ParseUint_range _ _ Eu) as Hu.
    pose proof (sum_Z_nonneg us (parse_lengths_nonneg _ _ Eus)) as Hs.
    cbn [sum_Z fold_right] in *. fold (sum_Z us) in *.
    cbn [app readValues]. rewrite Eu. cbv zeta.
    rewrite wrap_uint64_small by lia.
    replace ((pos <=? pos + u) && (pos + u <=? len dst)) with true
      by (symmetry; apply andb_true_iff; split; apply Z.leb_le; lia).
    rewrite (IH us (pos + u) back) by (reflexivity || lia).
    replace (pos + u + sum_Z us) with (pos + (u + sum_Z us)) by lia.
    destruct (readValues dst back (pos + (u + sum_Z us))); try reflexivity.
    unfold slice. cbn [cut app].
    replace (pos + u - pos) with u by lia.
    rewrite skipn_skipn. rewrite Z2Nat.inj_add by lia.
    now rewrite (Nat.add_comm (Z.to_nat pos)).
Qed.

(** X13.  The lengths are read as strings: a length written as anything
    else than a JSON string (a number, say) is parsed as the empty string,
    and the row fails with the syntax error of [strconv.ParseUint] on it,
    provided the lengths before it parse and stay within the blob. *)
Theorem readRow_length_not_string (v l : Value) (front back : list Value)
  (blob : bytes) (ls : list Z) :
  go_len (row_values v) = true ->
  row_blob v = Ok blob ->
  row_lengths v = front ++ l :: back ->
  parse_lengths front = Ok ls ->
  sum_Z ls <= len blob ->
  (forall s, l <> VString s) ->
  readRow v = Err (NumError (B "ParseUint") [] ErrSyntax).
Proof.
  unfold go_len, row_blob, row_values, row_lengths, readRow.
  intros Hgo Hb Hl Hp Hsum Hns. apply Z.leb_le in Hgo. rewrite Hb, Hl.
  pose proof (Decode_len _ _ Hb) as Hcap.
  pose proof (DecodedLen_le _ (len_nonneg (GetStringBytes (Some v) [B "values"]))) as Hle.
  pose proof (len_nonneg blob) as Hnn.
  replace (len blob <=? base64.DecodedLen (len (GetStringBytes (Some v) [B "values"])))
    with true by (symmetry; apply Z.leb_le; lia).
  rewrite (readValues_app _ front ls 0 (l :: back) Hp).
  - cbn [readValues].
    replace (GetStringBytes (Some l) []) with (@nil byte).
    + rewrite ParseUint_nil. reflexivity.
    + unfold GetStringBytes, Get, Get_path.
      destruct l; try reflexivity. now contradiction (Hns s).
  - lia.
  - rewrite len_app. rewrite len_make_bytes by lia. lia.
  - rewrite len_app, len_make_bytes by lia.
    unfold max_int, uint64_modulus in *. lia.
Qed.

Lemma readRow_length_not_string_witness :
  readRow (VObject [(B "lengths", VArray [VString (B "1"); VNumber (B "2")]);
                    (B "values", VString (B "YWJj"))])
  = Err (NumError (B "ParseUint") [] ErrSyntax).
Proof.
  apply (readRow_length_not_string
           (VObject [(B "lengths", VArray [VString (B "1"); VNumber (B "2")]);
                     (B "values", VString (B "YWJj"))])
           (VNumber (B "2")) [VString (B "1")] [] (B "abc") [1]);
    try reflexivity.
  - vm_compute. discriminate.
  - discriminate.
Defined.

(** ** Values that are no base64 *)

Lemma skip_newlines_foreign (src : bytes) :
  existsb foreign_byte src = true ->
  existsb foreign_byte (base64.skip_newlines src) = true.
Proof.
  induction src as [|c rest IH]; [discriminate|].
  cbn [existsb base64.skip_newlines]. intros H.
  destruct (base64.is_newline c) eqn:En; [|exact H].
  apply IH. unfold foreign_byte in H at 1. rewrite En in H.
  destruct (base64.decodeMap c); cbn [negb andb orb] in H; exact H.
Qed.

Lemma foreign_not_pad (c : byte) :
  foreign_byte c = true -> Byte.eqb c base64.padChar = false.
Proof.
  unfold foreign_byte. destruct (base64.decodeMap c); [discriminate|].
  destruct (Byte.eqb c base64.padChar); [|reflexivity].
  rewrite andb_false_r. discriminate.
Qed.

Lemma decode_from_foreign (src : bytes) :
  forall dbuf,
    existsb foreign_byte src = true ->
    base64.decode_from src dbuf = Err CorruptInputError.
Proof.
  induction src as [|c rest IH]; intros dbuf H; [discriminate|].
  cbn [existsb] in H. cbn [base64.decode_from].
  unfold foreign_byte in H at 1.
  destruct (base64.decodeMap c) as [d|] eqn:Ed.
  - cbn [orb] in H.
    destruct (length (dbuf ++ [d]) =? 4)%nat; rewrite IH by exact H; reflexivity.
  - destruct (base64.is_newline c) eqn:En.
    + cbn [negb andb orb] in H. now apply IH.
    + destruct (Byte.eqb c base64.padChar) eqn:Ep; [|reflexivity].
      cbn [negb andb orb] in H.
      destruct (length dbuf) as [|[|[|[|n]]]]; try reflexivity.
      * apply skip_newlines_foreign in H.
        destruct (base64.skip_newlines rest) as [|c2 rest2]; [reflexivity|].
        cbn [existsb] in H.
        destruct (Byte.eqb c2 base64.padChar) eqn:Ep2; [|reflexivity].
        destruct (foreign_byte c2) eqn:Ef2.
        { apply foreign_not_pad in Ef2. congruence. }
        cbn [orb] in H. apply skip_newlines_foreign in H.
        destruct (base64.skip_newlines rest2); [discriminate | reflexivity].
      * apply skip_newlines_foreign in H.
        destruct (base64.skip_newlines rest); [discriminate | reflexivity].
Qed.

(** X14.  A [values] string holding a byte that is neither of the base64
    alphabet, nor a line break, nor the padding sign makes the row fail with
    the corrupt-input error of the base64 decoder; the lengths of the row
    are not looked at. *)
Theorem readRow_values_not_base64 (v : Value) :
  existsb foreign_byte (row_values v) = true ->
  readRow v = Err CorruptInputError.
Proof.
  intros H. unfold readRow. fold (row_values v).
  unfold base64.Decode. now rewrite decode_from_foreign.
Qed.

Lemma readRow_values_not_base64_witness :
  readRow (row_object "YW_j" ["x"]%string) = Err CorruptInputError.
Proof. apply readRow_values_not_base64. reflexivity. Defined.

(** ** The query properties at sample inputs *)

Lemma QueryContext_exchange_error_witness :
  QueryContext (lib := Reference.libraries) context_Background select_1 []
    (state_of active_conn [Failure (NetError (B "timeout"))])
  = (Err (NetError (B "timeout")),
     exchanged (state_of active_conn [Failure (NetError (B "timeout"))])
       (exchange context_Background active_conn executorEndpoint
          (execute_body quoted_select_1 active_conn))
       active_conn).
Proof.
  apply (QueryContext_exchange_error (lib := Reference.libraries)
           context_Background select_1 []
           (state_of active_conn [Failure (NetError (B "timeout"))])
           (json "{'id':'1'}") quoted_select_1 (NetError (B "timeout")));
    reflexivity.
Defined.

Lemma QueryContext_parse_error_witness :
  fst (QueryContext (lib := Reference.libraries) context_Background select_1 []
         (state_of active_conn [reply 200 "{'session':{'id':'2'}"]))
  = Err (JSONError (B "cannot parse JSON")) /\
  conn (snd (QueryContext (lib := Reference.libraries) context_Background select_1 []
               (state_of active_conn [reply 200 "{'session':{'id':'2'}"])))
  = active_conn.
Proof.
  apply (QueryContext_parse_error (lib := Reference.libraries)
           context_Background select_1 []
           (state_of active_conn [reply 200 "{'session':{'id':'2'}"])
           (json "{'id':'1'}") quoted_select_1
           {| StatusCode := 200; RespBody := json "{'session':{'id':'2'}";
              ReadErr := None |} []);
    reflexivity.
Defined.

Lemma QueryContext_bootstrap_error_witness :
  QueryContext (lib := Reference.libraries) context_Background select_1 []
    busy_then_ready
  = (Err (Errorf (B "planetscale API error: 503" ++ [x0a] ++ B "busy")),
     exchanged busy_then_ready
       (exchange context_Background fresh_conn sessionEndpoint (B "{}")) fresh_conn) /\
  exists news,
    sent (net (snd (QueryContext (lib := Reference.libraries) (context_Other 1)
                      select_1 []
                      (snd (QueryContext (lib := Reference.libraries)
                              context_Background select_1 [] busy_then_ready)))))
    = sent (net busy_then_ready)
      ++ exchange context_Background fresh_conn sessionEndpoint (B "{}")
         :: exchange (context_Other 1) fresh_conn sessionEndpoint (B "{}") :: news.
Proof.
  apply (QueryContext_bootstrap_error (lib := Reference.libraries)
           context_Background (context_Other 1) select_1 select_1 [] []
           busy_then_ready
           (Errorf (B "planetscale API error: 503" ++ [x0a] ++ B "busy")));
    reflexivity.
Defined.

Lemma QueryContext_bootstrap_replay_witness :
  exists ex,
    sent (net (snd (QueryContext (lib := Reference.libraries) context_Background
                      select_1 [] bootstrap_state)))
    = sent (net bootstrap_state)
      ++ [exchange context_Background fresh_conn sessionEndpoint (B "{}"); ex] /\
    URL (ex_req ex) = request_url fresh_conn executorEndpoint /\
    Body (ex_req ex) = json "{'query':'select 1','session':{'id':'1'}}".
Proof.
  apply (QueryContext_bootstrap_replay (lib := Reference.libraries)
           context_Background select_1 [] bootstrap_state quoted_select_1
           {| StatusCode := 200; RespBody := json "{'session':{'id':'1'}}";
              ReadErr := None |}
           [reply 200 empty_result_body; reply 200 empty_result_body;
            reply 200 empty_result_body]
           (VObject [(B "session", VObject [(B "id", VString (B "1"))])])
           [(B "id", VString (B "1"))]);
    reflexivity.
Defined.

Lemma session_replayed_witness :
  exists ex,
    sent (net (snd (QueryContext (lib := Reference.libraries) (context_Other 1)
                      (B "select 2") []
                      (snd (QueryContext (lib := Reference.libraries)
                              context_Background select_1 [] rotate_then_result)))))
    = sent (net (snd (QueryContext (lib := Reference.libraries)
                        context_Background select_1 [] rotate_then_result)))
      ++ [ex] /\
    URL (ex_req ex) = request_url active_conn executorEndpoint /\
    Body (ex_req ex) = json "{'query':'select 2','session':{'id':'2'}}".
Proof.
  apply (session_replayed (lib := Reference.libraries)
           context_Background (context_Other 1) select_1 (B "select 2") [] []
           rotate_then_result rotate_then_result
           quoted_select_1 ([x22] ++ B "select 2" ++ [x22])
           {| StatusCode := 200; RespBody := json rotating_error_body; ReadErr := None |}
           [reply 200 empty_result_body]
           rotating_error_value [(B "id", VString (B "2"))]);
    reflexivity.
Defined.

Lemma Close_keeps_session_witness :
  fst (Close rotate_then_result) = Ok tt /\
  session (conn (snd (Close rotate_then_result))) = Some (json "{'id':'1'}") /\
  requests_to active_conn sessionEndpoint
    (sent (net (snd (QueryContext (lib := Reference.libraries) context_Background
                       select_1 [] (snd (Close rotate_then_result))))))
  = requests_to active_conn sessionEndpoint (sent (net rotate_then_result)).
Proof.
  apply (Close_keeps_session (lib := Reference.libraries) context_Background
           select_1 [] rotate_then_result).
  discriminate.
Defined.

(** ** The cursor on its way *)

Lemma copy_values_fits (vals : list bytes) :
  forall dest,
    (length vals <= length dest)%nat ->
    copy_values vals dest = (Ok tt, map DBytes vals ++ skipn (length vals) dest).
Proof.
  induction vals as [|v vals IH]; intros dest Hlen; [reflexivity|].
  destruct dest as [|d dest]; cbn [length] in Hlen; [lia|].
  cbn [copy_values]. rewrite IH by lia. reflexivity.
Qed.

Lemma copy_values_short (vals : list bytes) :
  forall dest,
    (length dest < length vals)%nat ->
    copy_values vals dest
    = (Panic index_out_of_range, map DBytes (firstn (length dest) vals)).
Proof.
  induction vals as [|v vals IH]; intros dest Hlen; cbn [length] in Hlen; [lia|].
  destruct dest as [|d dest]; [reflexivity|].
  cbn [length] in Hlen. cbn [copy_values]. rewrite IH by lia. reflexivity.
Qed.

Lemma Next_in_range (r : PsResults) (row : PsRow) :
  0 <= pos r ->
  nth_error (Rows r) (Z.to_nat (pos r)) = Some row ->
  len (Rows r) <= max_int ->
  (len (Rows r) <? wrap_int (pos r + 1)) = false /\
  wrap_int (pos r + 1) = pos r + 1 /\
  (pos r <? 0) = false.
Proof.
  intros Hpos Hnth Hlen.
  assert (Hlt : (Z.to_nat (pos r) < length (Rows r))%nat)
    by (apply nth_error_Some; congruence).
  unfold len in *.
  rewrite wrap_int_small by (unfold min_int, max_int in *; lia).
  repeat split; [apply Z.ltb_ge | apply Z.ltb_ge]; lia.
Qed.

(** X15.  With the cursor on a row and a destination of at least as many
    cells as the row has values, [Next] returns nil, writes the values of
    the row, in order, into the first cells of the destination, leaves the
    cells behind them as they were, and moves the cursor by one. *)
Theorem Next_advance (r : PsResults) (row : PsRow) (dest : list driver_Value) :
  0 <= pos r ->
  nth_error (Rows r) (Z.to_nat (pos r)) = Some row ->
  len (Rows r) <= max_int ->
  (length (Values row) <= length dest)%nat ->
  Next r dest
  = (Ok tt,
     {| Fields := Fields r; Rows := Rows r; pos := pos r + 1 |},
     map DBytes (Values row) ++ skipn (length (Values row)) dest).
Proof.
  intros Hpos Hnth Hlen Hdest.
  destruct (Next_in_range r row Hpos Hnth Hlen) as (H1 & H2 & H3).
  unfold Next. rewrite H1, H3, Hnth, (copy_values_fits _ _ Hdest), H2.
  reflexivity.
Qed.

(** X16.  With the cursor on a row and a destination of fewer cells than the
    row has values, [Next] panics on an index out of range after it has
    filled every cell of the destination, and the cursor stays where it
    was. *)
Theorem Next_short_destination (r : PsResults) (row : PsRow)
  (dest : list driver_Value) :
  0 <= pos r ->
  nth_error (Rows r) (Z.to_nat (pos r)) = Some row ->
  len (Rows r) <= max_int ->
  (length dest < length (Values row))%nat ->
  Next r dest
  = (Panic index_out_of_range, r,
     map DBytes (firstn (length dest) (Values row))).
Proof.
  intros Hpos Hnth Hlen Hdest.
  destruct (Next_in_range r row Hpos Hnth Hlen) as (H1 & H2 & H3).
  unfold Next. rewrite H1, H3, Hnth, (copy_values_short _ _ Hdest).
  reflexivity.
Qed.

Lemma skipn_nth_error {A} (l : list A) :
  forall k x, nth_error l k = Some x -> skipn k l = x :: skipn (S k) l.
Proof.
  induction l as [|y l IH]; intros [|k] x H; try discriminate.
  - injection H as ->. reflexivity.
  - cbn [nth_error] in H. cbn [skipn]. now apply IH.
Qed.

Lemma read_all_from (n : nat) :
  forall r dest fuel,
    0 <= pos r ->
    (Z.to_nat (pos r) + n = length (Rows r))%nat ->
    len (Rows r) < max_int ->
    Forall (fun row => length (Values row) = length dest) (Rows r) ->
    (n < fuel)%nat ->
    read_all fuel r dest
    = (map (fun row => map DBytes (Values row)) (skipn (Z.to_nat (pos r)) (Rows r)),
       Err io_EOF).
Proof.
  induction n as [|n IH]; intros r dest fuel Hpos Hn Hlen Hw Hfuel;
    (destruct fuel as [|fuel]; [lia|]); cbn [read_all].
  - rewrite Next_at_end by (unfold len in *; lia).
    rewrite skipn_all2 by lia. reflexivity.
  - destruct (nth_error (Rows r) (Z.to_nat (pos r))) as [row|] eqn:Hnth;
      [|apply nth_error_None in Hnth; lia].
    assert (Hrow : length (Values row) = length dest).
    { rewrite Forall_forall in Hw. apply Hw. eapply nth_error_In; eassumption. }
    rewrite (Next_advance r row dest Hpos Hnth) by lia.
    rewrite Hrow, skipn_all, app_nil_r.
    rewrite IH; cbn [pos Rows].
    + rewrite (skipn_nth_error _ _ _ Hnth). cbn [map].
      replace (Z.to_nat (pos r + 1)) with (S (Z.to_nat (pos r))) by lia.
      reflexivity.
    + lia.
    + lia.
    + exact Hlen.
    + rewrite length_map, Hrow. exact Hw.
    + lia.
Qed.

(** X17.  A caller that starts at the first row and calls [Next] until it
    fails, on a destination as wide as every row, sees every row of the
    result set once and in order, each as the byte values of the row, and is
    stopped by [io.EOF]. *)
Theorem read_all_rows (r : PsResults) (dest : list driver_Value) (fuel : nat) :
  pos r = 0 ->
  len (Rows r) < max_int ->
  Forall (fun row => length (Values row) = length dest) (Rows r) ->
  (length (Rows r) < fuel)%nat ->
  read_all fuel r dest
  = (map (fun row => map DBytes (Values row)) (Rows r), Err io_EOF).
Proof.
  intros Hpos Hlen Hw Hfuel.
  rewrite (read_all_from (length (Rows r)) r dest fuel); rewrite ?Hpos;
    try assumption; try reflexivity; lia.
Qed.

Lemma Next_advance_witness :
  Next two_rows [DNil; DNil; DInt 7]
  = (Ok tt,
     {| Fields := []; Rows := Rows two_rows; pos := 1 |},
     [DBytes (B "a"); DBytes (B "bc"); DInt 7]).
Proof.
  apply (Next_advance two_rows {| Values := [B "a"; B "bc"] |} [DNil; DNil; DInt 7]).
  - reflexivity.
  - reflexivity.
  - vm_compute. discriminate.
  - cbn [length Values]. lia.
Defined.

Lemma Next_short_destination_witness :
  Next two_rows [DNil] = (Panic index_out_of_range, two_rows, [DBytes (B "a")]).
Proof.
  apply (Next_short_destination two_rows {| Values := [B "a"; B "bc"] |} [DNil]).
  - reflexivity.
  - reflexivity.
  - vm_compute. discriminate.
  - cbn [length Values]. lia.
Defined.

Lemma read_all_rows_witness :
  read_all 5 two_rows [DNil; DNil]
  = ([[DBytes (B "a"); DBytes (B "bc")]; [DBytes []; DBytes (B "d")]], Err io_EOF).
Proof.
  apply (read_all_rows two_rows [DNil; DNil] 5).
  - reflexivity.
  - reflexivity.
  - repeat constructor.
  - cbn [length Rows two_rows]. lia.
Defined.

(** ** base64: decoding what was encoded *)

Lemma decodeMap_encodeMap (v : Z) :
  0 <= v < 64 -> base64.decodeMap (base64.encodeMap v) = Some v.
Proof.
  intros Hv.
  assert (Hall : forallb (fun n => match base64.decodeMap (base64.encodeMap (Z.of_nat n)) with
                                   | Some w => w =? Z.of_nat n
                                   | None => false
                                   end) (seq 0 64) = true) by (vm_compute; reflexivity).
  rewrite forallb_forall in Hall.
  specialize (Hall (Z.to_nat v)). rewrite Z2Nat.id in Hall by lia.
  assert (Hin : In (Z.to_nat v) (seq 0 64)) by (apply in_seq; lia).
  specialize (Hall Hin).
  destruct (base64.decodeMap (base64.encodeMap v)) as [w|]; [|discriminate].
  apply Z.eqb_eq in Hall. now subst.
Qed.

Lemma lor_mul_add (k n y : Z) :
  0 <= n -> 0 <= y < 2 ^ n -> Z.lor (k * 2 ^ n) y = k * 2 ^ n + y.
Proof.
  intros Hn Hy.
  rewrite <- Z.lxor_lor, <- Z.add_nocarry_lxor; try reflexivity;
    rewrite <- Z.shiftl_mul_pow2 by lia;
    apply Z.bits_inj'; intros m Hm; rewrite Z.land_spec, Z.bits_0;
    destruct (Z_lt_ge_dec m n) as [Hlt | Hge].
  - now rewrite Z.shiftl_spec_low.
  - rewrite <- (Z.mod_small y (2 ^ n)) by lia.
    rewrite Z.mod_pow2_bits_high by lia. apply andb_false_r.
  - now rewrite Z.shiftl_spec_low.
  - rewrite <- (Z.mod_small y (2 ^ n)) by lia.
    rewrite Z.mod_pow2_bits_high by lia. apply andb_false_r.
Qed.

Lemma byte_to_Z_range (b : byte) : 0 <= byte_to_Z b < 256.
Proof.
  unfold byte_to_Z. pose proof (Byte.to_N_bounded b). lia.
Qed.

Lemma Z_to_byte_to_Z (b : byte) : Z_to_byte (byte_to_Z b) = b.
Proof.
  unfold Z_to_byte. rewrite Z.mod_small by apply byte_to_Z_range.
  unfold byte_to_Z. rewrite N2Z.id, Byte.of_to_N. reflexivity.
Qed.

Lemma Z_to_byte_eq (z : Z) (b : byte) :
  z mod 256 = byte_to_Z b -> Z_to_byte z = b.
Proof.
  intros H. unfold Z_to_byte. rewrite H.
  unfold byte_to_Z. rewrite N2Z.id, Byte.of_to_N. reflexivity.
Qed.

Lemma lor_shiftl_add (k n y : Z) :
  0 <= n -> 0 <= y < 2 ^ n -> Z.lor (Z.shiftl k n) y = k * 2 ^ n + y.
Proof. intros Hn Hy. rewrite Z.shiftl_mul_pow2 by lia. now apply lor_mul_add. Qed.

Lemma lor3 (A B C : Z) :
  0 <= B < 256 -> 0 <= C < 256 ->
  Z.lor (Z.lor (Z.shiftl A 16) (Z.shiftl B 8)) C = A * 65536 + B * 256 + C.
Proof.
  intros HB HC. rewrite (Z.shiftl_mul_pow2 B) by lia.
  rewrite (lor_shiftl_add A 16) by (change (2 ^ 8) with 256; change (2 ^ 16) with 65536; lia).
  replace (A * 2 ^ 16 + B * 2 ^ 8) with ((A * 256 + B) * 2 ^ 8)
    by (change (2 ^ 8) with 256; change (2 ^ 16) with 65536; lia).
  rewrite lor_mul_add by (change (2 ^ 8) with 256; lia).
  change (2 ^ 8) with 256. lia.
Qed.

Lemma lor4 (v1 v2 v3 v4 : Z) :
  0 <= v2 < 64 -> 0 <= v3 < 64 -> 0 <= v4 < 64 ->
  Z.lor (Z.lor (Z.shiftl v1 18) (Z.shiftl v2 12)) (Z.lor (Z.shiftl v3 6) v4)
  = v1 * 262144 + v2 * 4096 + v3 * 64 + v4.
Proof.
  intros H2 H3 H4. rewrite (Z.shiftl_mul_pow2 v2) by lia.
  rewrite (lor_shiftl_add v1 18)
    by (change (2 ^ 12) with 4096; change (2 ^ 18) with 262144; lia).
  rewrite (lor_shiftl_add v3 6) by (change (2 ^ 6) with 64; lia).
  replace (v1 * 2 ^ 18 + v2 * 2 ^ 12) with ((v1 * 64 + v2) * 2 ^ 12)
    by (change (2 ^ 12) with 4096; change (2 ^ 18) with 262144; lia).
  rewrite lor_mul_add
    by (change (2 ^ 6) with 64; change (2 ^ 12) with 4096; lia).
  change (2 ^ 6) with 64. change (2 ^ 12) with 4096. lia.
Qed.

Lemma sextet (val n : Z) :
  0 <= n -> Z.land (Z.shiftr val n) 63 = (val / 2 ^ n) mod 64.
Proof.
  intros Hn. change 63 with (Z.ones 6).
  rewrite Z.land_ones, Z.shiftr_div_pow2 by lia. reflexivity.
Qed.

Lemma sextet_low (val : Z) : Z.land val 63 = val mod 64.
Proof. change 63 with (Z.ones 6). now rewrite Z.land_ones by lia. Qed.

Lemma sextet_range (val n : Z) : 0 <= n -> 0 <= Z.land (Z.shiftr val n) 63 < 64.
Proof. intros Hn. rewrite sextet by lia. apply Z.mod_pos_bound. lia. Qed.

Lemma sextet_low_range (val : Z) : 0 <= Z.land val 63 < 64.
Proof. rewrite sextet_low. apply Z.mod_pos_bound. lia. Qed.

Ltac sextets_to_arith :=
  rewrite ?sextet, ?sextet_low by lia;
  change (2 ^ 18) with 262144; change (2 ^ 12) with 4096;
  change (2 ^ 6) with 64; change (2 ^ 16) with 65536; change (2 ^ 8) with 256.

(** Three bytes come back from the four characters they were put in. *)
Lemma quantum_three (a b c : byte) :
  let val := Z.lor (Z.lor (Z.shiftl (byte_to_Z a) 16) (Z.shiftl (byte_to_Z b) 8))
                   (byte_to_Z c) in
  base64.quantum [Z.land (Z.shiftr val 18) 63; Z.land (Z.shiftr val 12) 63;
                  Z.land (Z.shiftr val 6) 63; Z.land val 63] 4
  = [a; b; c].
Proof.
  cbv zeta. pose proof (byte_to_Z_range a) as HA.
  pose proof (byte_to_Z_range b) as HB. pose proof (byte_to_Z_range c) as HC.
  unfold base64.quantum. cbn [nth Nat.sub firstn].
  rewrite lor4 by (apply sextet_range || apply sextet_low_range; lia).
  rewrite lor3 by lia. rewrite !Z.shiftr_div_pow2 by lia. sextets_to_arith.
  set (A := byte_to_Z a) in *. set (B0 := byte_to_Z b) in *.
  set (C := byte_to_Z c) in *.
  f_equal; [|f_equal; [|f_equal]]; apply Z_to_byte_eq;
    fold A; fold B0; fold C; Z.div_mod_to_equations; lia.
Qed.

(** Two bytes come back from three characters and a padding sign. *)
Lemma quantum_two (a b : byte) :
  let val := Z.lor (Z.shiftl (byte_to_Z a) 16) (Z.shiftl (byte_to_Z b) 8) in
  base64.quantum [Z.land (Z.shiftr val 18) 63; Z.land (Z.shiftr val 12) 63;
                  Z.land (Z.shiftr val 6) 63] 3
  = [a; b].
Proof.
  cbv zeta. pose proof (byte_to_Z_range a) as HA.
  pose proof (byte_to_Z_range b) as HB.
  unfold base64.quantum. cbn [nth Nat.sub firstn].
  rewrite lor4 by ((apply sextet_range; lia) || lia).
  rewrite <- (Z.lor_0_r (Z.lor (Z.shiftl (byte_to_Z a) 16) (Z.shiftl (byte_to_Z b) 8))).
  rewrite lor3 by lia. rewrite !Z.shiftr_div_pow2 by lia. sextets_to_arith.
  set (A := byte_to_Z a) in *. set (B0 := byte_to_Z b) in *.
  f_equal; [|f_equal]; apply Z_to_byte_eq;
    fold A; fold B0; Z.div_mod_to_equations; lia.
Qed.

(** One byte comes back from two characters and two padding signs. *)
Lemma quantum_one (a : byte) :
  let val := Z.shiftl (byte_to_Z a) 16 in
  base64.quantum [Z.land (Z.shiftr val 18) 63; Z.land (Z.shiftr val 12) 63] 2 = [a].
Proof.
  cbv zeta. pose proof (byte_to_Z_range a) as HA.
  unfold base64.quantum. cbn [nth Nat.sub firstn].
  rewrite lor4 by ((apply sextet_range; lia) || lia).
  rewrite !Z.shiftl_mul_pow2, !Z.shiftr_div_pow2 by lia. sextets_to_arith.
  set (A := byte_to_Z a) in *.
  f_equal; apply Z_to_byte_eq; fold A; Z.div_mod_to_equations; lia.
Qed.

Lemma decode_step (c : byte) (v : Z) (rest : bytes) (dbuf : list Z) :
  base64.decodeMap c = Some v ->
  base64.decode_from (c :: rest) dbuf
  = if (length (dbuf ++ [v]) =? 4)%nat
    then match base64.decode_from rest [] with
         | Ok out => Ok (base64.quantum (dbuf ++ [v]) 4 ++ out)
         | other => other
         end
    else base64.decode_from rest (dbuf ++ [v]).
Proof. intros H. cbn [base64.decode_from]. now rewrite H. Qed.

Lemma decode_encoded (v : Z) (rest : bytes) (dbuf : list Z) :
  0 <= v < 64 ->
  base64.decode_from (base64.encodeMap v :: rest) dbuf
  = if (length (dbuf ++ [v]) =? 4)%nat
    then match base64.decode_from rest [] with
         | Ok out => Ok (base64.quantum (dbuf ++ [v]) 4 ++ out)
         | other => other
         end
    else base64.decode_from rest (dbuf ++ [v]).
Proof. intros H. apply decode_step. now apply decodeMap_encodeMap. Qed.

Lemma decode_padding_two (v1 v2 : Z) :
  base64.decode_from [base64.padChar; base64.padChar] [v1; v2]
  = Ok (base64.quantum [v1; v2] 2).
Proof. reflexivity. Qed.

Lemma decode_padding_one (v1 v2 v3 : Z) :
  base64.decode_from [base64.padChar] [v1; v2; v3]
  = Ok (base64.quantum [v1; v2; v3] 3).
Proof. reflexivity. Qed.

Lemma Decode_EncodeToString_upto (n : nat) :
  forall s, (length s <= n)%nat ->
            base64.decode_from (base64.EncodeToString s) [] = Ok s.
Proof.
  induction n as [|n IH]; intros s Hlen.
  - destruct s; [reflexivity | cbn [length] in Hlen; lia].
  - destruct s as [|a [|b [|c rest]]]; [reflexivity| | |].
    + cbn [base64.EncodeToString].
      rewrite !decode_encoded by (apply sextet_range; lia).
      cbn [app length Nat.eqb]. rewrite decode_padding_two, quantum_one. reflexivity.
    + cbn [base64.EncodeToString].
      rewrite !decode_encoded by (apply sextet_range; lia).
      cbn [app length Nat.eqb]. rewrite decode_padding_one, quantum_two. reflexivity.
    + cbn [base64.EncodeToString].
      rewrite !decode_encoded
        by ((apply sextet_range; lia) || apply sextet_low_range).
      cbn [app length Nat.eqb].
      rewrite IH by (cbn [length] in Hlen; lia).
      rewrite quantum_three. reflexivity.
Qed.

Lemma Decode_EncodeToString (s : bytes) :
  base64.Decode (base64.EncodeToString s) = Ok s.
Proof. apply (Decode_EncodeToString_upto (length s)). lia. Qed.

(** X18.  When the URL parses, [buildRequest] touches neither the connection
    nor the network and returns a POST request for [https://] followed by
    the host and the endpoint, with the given body; the value of its
    [Authorization] header is [Basic] and a credential that base64-decodes
    to the user name, a colon and the password. *)
Theorem buildRequest_authorization {lib : Libraries} (endpoint body : bytes)
  (st : State) :
  url_Parse (request_url (conn st) endpoint) = None ->
  exists req cred,
    buildRequest endpoint body st = (Ok req, st) /\
    Method req = B "POST" /\
    URL req = B "https://" ++ host (conn st) ++ endpoint /\
    Body req = body /\
    map fst (Header req)
    = [B "Host"; B "Content-Type"; B "User-Agent"; B "Authorization"] /\
    nth_error (Header req) 3 = Some (B "Authorization", B "Basic " ++ cred) /\
    base64.Decode cred = Ok (username (conn st) ++ B ":" ++ password (conn st)).
Proof.
  intros Hu. rewrite buildRequest_eq, Hu.
  exists (request_for (conn st) endpoint body).
  exists (base64.EncodeToString (username (conn st) ++ B ":" ++ password (conn st))).
  repeat split. apply Decode_EncodeToString.
Qed.

Lemma buildRequest_authorization_witness :
  exists req cred,
    buildRequest (lib := Reference.libraries) executorEndpoint (B "{}")
      (state_of fresh_conn [])
    = (Ok req, state_of fresh_conn []) /\
    Method req = B "POST" /\
    URL req = B "https://" ++ B "db.example.com" ++ executorEndpoint /\
    Body req = B "{}" /\
    map fst (Header req)
    = [B "Host"; B "Content-Type"; B "User-Agent"; B "Authorization"] /\
    nth_error (Header req) 3 = Some (B "Authorization", B "Basic " ++ cred) /\
    base64.Decode cred = Ok (B "u" ++ B ":" ++ B "p").
Proof.
  apply (buildRequest_authorization (lib := Reference.libraries) executorEndpoint
           (B "{}") (state_of fresh_conn [])).
  reflexivity.
Defined.

(** ** Rows: decoding what was encoded *)

Lemma cut_concat (vals : list bytes) :
  cut (map (fun v : bytes => len v) vals) (concat vals) = vals.
Proof.
  induction vals as [|v vals IH]; [reflexivity|].
  cbn [map concat cut].
  replace (Z.to_nat (len v)) with (length v) by (unfold len; lia).
  rewrite firstn_app, skipn_app, firstn_all, skipn_all, Nat.sub_diag.
  cbn [firstn skipn app]. rewrite app_nil_r. now rewrite IH.
Qed.

Lemma sum_lengths (vals : list bytes) :
  sum_Z (map (fun v : bytes => len v) vals) = len (concat vals).
Proof.
  induction vals as [|v vals IH]; [reflexivity|].
  cbn [map concat sum_Z fold_right]. fold (sum_Z (map (fun v : bytes => len v) vals)).
  rewrite len_app, IH. reflexivity.
Qed.

(** X19.  The row decoder inverts the encoding of a row: for any column
    values, the row whose [values] string is the base64 encoding of their
    concatenation and whose lengths parse to the lengths of the values
    decodes to exactly these values, empty ones included. *)
Theorem readRow_encode_row (lengths : list Value) (vals : list bytes) :
  go_len (base64.EncodeToString (concat vals)) = true ->
  parse_lengths lengths = Ok (map (fun v : bytes => len v) vals) ->
  readRow (encode_row lengths vals) = Ok {| Values := vals |}.
Proof.
  intros Hgo Hp.
  rewrite (readRow_cut (encode_row lengths vals) (concat vals)
             (map (fun v : bytes => len v) vals)).
  - now rewrite cut_concat.
  - exact Hgo.
  - apply Decode_EncodeToString.
  - exact Hp.
  - rewrite sum_lengths. lia.
Qed.

Lemma readRow_encode_row_witness :
  readRow (encode_row [VString (B "2"); VString (B "0"); VString (B "3")]
             [B "ab"; []; B "cde"])
  = Ok {| Values := [B "ab"; []; B "cde"] |}.
Proof.
  apply readRow_encode_row; reflexivity.
Defined.

(** ** A query that succeeds *)

(** X20.  When the execute exchange is answered 200 with a body that parses
    to a value without an [error] object and with a [result] object holding
    [fields] and [rows], and the rows decode, the query returns the result
    set of the fields read and the rows decoded, its cursor before the first
    row; it has sent the execute request and nothing else after the session
    was ensured, has taken one reply, and has changed nothing on the
    connection but the session, replaced when the response holds one. *)
Theorem QueryContext_result {lib : Libraries} (ctx : Context) (query : bytes)
  (args : list driver_Value) (st st1 : State) (q : bytes) (r : Response)
  (rest : list Reply) (v : Value) (result : Object) (f rws : Value)
  (rows : list PsRow) :
  ensureSession ctx st = (Ok tt, st1) ->
  json_Marshal query = Ok q ->
  url_Parse (request_url (conn st1) executorEndpoint) = None ->
  replies (net st1) = Answer r :: rest ->
  ReadErr r = None ->
  StatusCode r = 200 ->
  ParseBytes (RespBody r) = Ok v ->
  GetObject (Some v) [B "error"] = None ->
  GetObject (Some v) [B "result"] = Some result ->
  Object_Get result (B "fields") = Some f ->
  Object_Get result (B "rows") = Some rws ->
  readRows (Some rws) = Ok rows ->
  exists fs,
    readFields (Some f) = Ok fs /\
    QueryContext ctx query args st
    = (Ok {| Fields := fs; Rows := rows; pos := 0 |},
       {| conn := rotated v (conn st1);
          net := {| replies := rest;
                    sent := sent (net st1)
                            ++ [exchange ctx (conn st1) executorEndpoint
                                  (execute_body q (conn st1))] |} |}).
Proof.
  intros Hen Hq Hu Hr He Hc Hp Herr Hres Hf Hrows Hdec.
  eexists. split; [reflexivity|].
  rewrite (QueryContext_after_ensure _ _ _ _ _ Hen).
  rewrite (execute_answered _ _ q _ r rest v Hq Hu Hr He Hc Hp).
  cbv zeta. unfold readResponse. rewrite Herr, Hres, Hf, Hrows.
  unfold readFields. rewrite Hdec.
  unfold after_send. cbn [conn net sent replies]. rewrite Hr. reflexivity.
Qed.

Lemma QueryContext_result_witness :
  exists fs,
    readFields (Some one_row_fields) = Ok fs /\
    QueryContext (lib := Reference.libraries) context_Background select_1 []
      (state_of active_conn [reply 200 one_row_body])
    = (Ok {| Fields := fs; Rows := [{| Values := [B "a"; B "bc"] |}]; pos := 0 |},
       {| conn := active_conn;
          net := {| replies := [];
                    sent := [exchange context_Background active_conn executorEndpoint
                               (json "{'query':'select 1','session':{'id':'1'}}")] |} |}).
Proof.
  apply (QueryContext_result (lib := Reference.libraries) context_Background
           select_1 [] (state_of active_conn [reply 200 one_row_body])
           (state_of active_conn [reply 200 one_row_body])
           quoted_select_1
           {| StatusCode := 200; RespBody := json one_row_body; ReadErr := None |} []
           (VObject [(B "result",
                      VObject [(B "fields", one_row_fields);
                               (B "rows", VArray [row_object "YWJj" ["1"; "2"]%string])])])
           [(B "fields", one_row_fields);
            (B "rows", VArray [row_object "YWJj" ["1"; "2"]%string])]
           one_row_fields
           (VArray [row_object "YWJj" ["1"; "2"]%string])
           [{| Values := [B "a"; B "bc"] |}]);
    reflexivity.
Defined.
